(** * Accident tracker: the records screen (src/app/accidentRecords.js)

    A shallow embedding of the two pieces of behaviour of the
    [AccidentRecords] component:

    - the [onSnapshot] callback, which normalises the [timestamp] field of
      every report, sorts the reports newest first and publishes them;
    - [handleRespond], which opens a maps link, marks the report
      "Help on way" and notifies the reporting user.

    The JavaScript runtime (values, [Date], [Array.prototype.sort]) and the
    collaborators (Firestore, [Alert], [Linking], [console]) are modelled as
    far as the component uses them. *)

From stdpp Require Import gmap strings list fin_maps sorting.
From Stdlib Require Import ZArith Lia Ascii String.

#[local] Set Warnings "-register-all".
#[local] Open Scope string_scope.
#[local] Open Scope Z_scope.

(* ===================================================================== *)
(** * Decimal digits *)
(* ===================================================================== *)

Definition ascii_of_digit (d : Z) : ascii :=
  ascii_of_N (48 + Z.to_N d).

Definition digit_of_ascii (c : ascii) : option Z :=
  let n := Z.of_N (N_of_ascii c) in
  if (48 <=? n) && (n <=? 57) then Some (n - 48) else None.

(** [put_digits w n rest] writes [n] in exactly [w] decimal digits, padded
    with zeros, in front of [rest]. *)
Fixpoint put_digits_acc (w : nat) (n : Z) (rest : string) : string :=
  match w with
  | O => rest
  | S w' => put_digits_acc w' (n / 10) (String (ascii_of_digit (n mod 10)) rest)
  end.

Definition put_digits (w : nat) (n : Z) (rest : string) : string :=
  put_digits_acc w n rest.

(** [take_digits w s] reads exactly [w] decimal digits from the front of
    [s]. *)
Fixpoint take_digits_acc (w : nat) (acc : Z) (s : string) : option (Z * string) :=
  match w with
  | O => Some (acc, s)
  | S w' =>
      match s with
      | EmptyString => None
      | String c s' =>
          match digit_of_ascii c with
          | Some d => take_digits_acc w' (10 * acc + d) s'
          | None => None
          end
      end
  end.

Definition take_digits (w : nat) (s : string) : option (Z * string) :=
  take_digits_acc w 0 s.

(** Decimal digits of a natural number without padding, most significant
    first; [fuel] bounds the number of digits. *)
Fixpoint put_nat_digits (fuel : nat) (n : Z) (rest : string) : string :=
  match fuel with
  | O => rest
  | S fuel' =>
      let rest' := String (ascii_of_digit (n mod 10)) rest in
      if n / 10 =? 0 then rest' else put_nat_digits fuel' (n / 10) rest'
  end.

(* ===================================================================== *)
(** * Time values (ECMA-262, "Date objects") *)
(* ===================================================================== *)

(** A time value is a number of milliseconds since the epoch, in UTC. *)

Definition msPerDay : Z := 86400000.
Definition msPerHour : Z := 3600000.
Definition msPerMinute : Z := 60000.
Definition msPerSecond : Z := 1000.

Definition Day (t : Z) : Z := t / msPerDay.

Definition DaysInYear (y : Z) : Z :=
  if negb (y mod 4 =? 0) then 365
  else if negb (y mod 100 =? 0) then 366
  else if negb (y mod 400 =? 0) then 365
  else 366.

Definition DayFromYear (y : Z) : Z :=
  365 * (y - 1970) + (y - 1969) / 4 - (y - 1901) / 100 + (y - 1601) / 400.

(** The year that contains day number [d]: the largest [y] with
    [DayFromYear y <= d].  The estimate from the mean length of a Gregorian
    year is off by at most one. *)
Definition YearFromDay (d : Z) : Z :=
  let y := 1970 + (d * 400) / 146097 in
  if DayFromYear (y + 1) <=? d then y + 1
  else if d <? DayFromYear y then y - 1
  else y.

Definition YearFromTime (t : Z) : Z := YearFromDay (Day t).

Definition InLeapYear (t : Z) : Z :=
  if DaysInYear (YearFromTime t) =? 366 then 1 else 0.

Definition DayWithinYear (t : Z) : Z := Day t - DayFromYear (YearFromTime t).

(** Months are numbered from 0 (January) to 11 (December). *)
Definition MonthFromTime (t : Z) : Z :=
  let d := DayWithinYear t in
  let l := InLeapYear t in
  if d <? 31 then 0
  else if d <? 59 + l then 1
  else if d <? 90 + l then 2
  else if d <? 120 + l then 3
  else if d <? 151 + l then 4
  else if d <? 181 + l then 5
  else if d <? 212 + l then 6
  else if d <? 243 + l then 7
  else if d <? 273 + l then 8
  else if d <? 304 + l then 9
  else if d <? 334 + l then 10
  else 11.

(** Number of days of the year before the first day of month [m]. *)
Definition DaysBeforeMonth (m : Z) (leap : Z) : Z :=
  if m =? 0 then 0
  else if m =? 1 then 31
  else if m =? 2 then 59 + leap
  else if m =? 3 then 90 + leap
  else if m =? 4 then 120 + leap
  else if m =? 5 then 151 + leap
  else if m =? 6 then 181 + leap
  else if m =? 7 then 212 + leap
  else if m =? 8 then 243 + leap
  else if m =? 9 then 273 + leap
  else if m =? 10 then 304 + leap
  else 334 + leap.

Definition DateFromTime (t : Z) : Z :=
  DayWithinYear t - DaysBeforeMonth (MonthFromTime t) (InLeapYear t) + 1.

Definition HourFromTime (t : Z) : Z := (t / msPerHour) mod 24.
Definition MinFromTime (t : Z) : Z := (t / msPerMinute) mod 60.
Definition SecFromTime (t : Z) : Z := (t / msPerSecond) mod 60.
Definition msFromTime (t : Z) : Z := t mod msPerSecond.

Definition MakeTime (hour min sec ms : Z) : Z :=
  hour * msPerHour + min * msPerMinute + sec * msPerSecond + ms.

Definition MakeDay (year month date : Z) : Z :=
  let ym := year + month / 12 in
  let mn := month mod 12 in
  let leap := if DaysInYear ym =? 366 then 1 else 0 in
  DayFromYear ym + DaysBeforeMonth mn leap + date - 1.

Definition MakeDate (day time : Z) : Z := day * msPerDay + time.

Definition maxTime : Z := 8640000000000000.

(** [TimeClip]: [None] stands for NaN, the time value of an invalid
    date. *)
Definition TimeClip (t : Z) : option Z :=
  if Z.abs t <=? maxTime then Some t else None.

(** [Date.prototype.toISOString] on a valid date with time value [t]:
    [YYYY-MM-DDTHH:mm:ss.sssZ], the year written with a sign and six
    digits outside 0..9999. *)
Definition put_year (y : Z) (rest : string) : string :=
  if (0 <=? y) && (y <=? 9999) then put_digits 4 y rest
  else if y <? 0 then String "-" (put_digits 6 (- y) rest)
  else String "+" (put_digits 6 y rest).

Definition toISOString (t : Z) : string :=
  put_year (YearFromTime t)
    (String "-" (put_digits 2 (MonthFromTime t + 1)
    (String "-" (put_digits 2 (DateFromTime t)
    (String "T" (put_digits 2 (HourFromTime t)
    (String ":" (put_digits 2 (MinFromTime t)
    (String ":" (put_digits 2 (SecFromTime t)
    (String "." (put_digits 3 (msFromTime t)
    (String "Z" EmptyString))))))))))))).

(** ** [Date.parse] on the Date Time String Format

    [YYYY], [YYYY-MM] or [YYYY-MM-DD] (the year possibly expanded to a sign
    and six digits), optionally followed by [THH:mm], [THH:mm:ss] or
    [THH:mm:ss.sss] and then [Z], an offset [+HH:mm] / [-HH:mm], or nothing.
    A date alone is UTC; a date and time without offset is local time, which
    the host converts with [utc_of_local]. *)

Definition take_year (s : string) : option (Z * string) :=
  match s with
  | String c s' =>
      if Ascii.eqb c "+" then take_digits 6 s'
      else if Ascii.eqb c "-" then
        '(y, r) ← take_digits 6 s';
        if y =? 0 then None else Some (- y, r)
      else take_digits 4 s
  | EmptyString => None
  end.

(** An optional group introduced by the separator [sep]: [w] digits, or
    the default [dflt] when the string does not continue with [sep]. *)
Definition take_opt (sep : ascii) (w : nat) (dflt : Z) (s : string)
  : option (Z * string * bool) :=
  match s with
  | String c s' =>
      if Ascii.eqb c sep
      then '(n, r) ← take_digits w s'; Some (n, r, true)
      else Some (dflt, s, false)
  | EmptyString => Some (dflt, s, false)
  end.

(** The same, attempted only when the group before it was present. *)
Definition take_opt_after (present : bool) (sep : ascii) (w : nat) (dflt : Z)
    (s : string) : option (Z * string * bool) :=
  if present then take_opt sep w dflt s else Some (dflt, s, false).

(** The character [c], which must come next. *)
Definition expect (c : ascii) (s : string) : option string :=
  match s with
  | String c' s' => if Ascii.eqb c' c then Some s' else None
  | EmptyString => None
  end.

(** The end of a date-time: [Some (Some off)] for an explicit offset in
    milliseconds, [Some None] for local time. *)
Definition take_zone (s : string) : option (option Z) :=
  match s with
  | EmptyString => Some None
  | String c s' =>
      if Ascii.eqb c "Z" then
        match s' with
        | EmptyString => Some (Some 0)
        | _ => None
        end
      else if Ascii.eqb c "+" || Ascii.eqb c "-" then
        '(h, r1) ← take_digits 2 s';
        r2 ← expect ":" r1;
        '(m, r3) ← take_digits 2 r2;
        match r3 with
        | EmptyString =>
            if (h <=? 23) && (m <=? 59) then
              let off := h * msPerHour + m * msPerMinute in
              Some (Some (if Ascii.eqb c "-" then - off else off))
            else None
        | _ => None
        end
      else None
  end.

Definition take_time (utc_of_local : Z → Z) (day : Z) (s : string) : option Z :=
  '(h, r1) ← take_digits 2 s;
  r2 ← expect ":" r1;
  '(m, r3) ← take_digits 2 r2;
  '(sec, r4, has_sec) ← take_opt ":" 2 0 r3;
  '(ms, r5, _) ← take_opt_after has_sec "." 3 0 r4;
  zone ← take_zone r5;
  if ((h <=? 23) && (m <=? 59) && (sec <=? 59))
     || ((h =? 24) && (m =? 0) && (sec =? 0) && (ms =? 0))
  then
    let t := MakeDate day (MakeTime h m sec ms) in
    match zone with
    | Some off => TimeClip (t - off)
    | None => TimeClip (utc_of_local t)
    end
  else None.

Definition parse_iso (utc_of_local : Z → Z) (s : string) : option Z :=
  '(y, r1) ← take_year s;
  '(mo, r2, has_month) ← take_opt "-" 2 1 r1;
  '(d, r3, _) ← take_opt_after has_month "-" 2 1 r2;
  if (1 <=? mo) && (mo <=? 12) && (1 <=? d) && (d <=? 31) then
    let day := MakeDay y (mo - 1) d in
    match r3 with
    | EmptyString => TimeClip (MakeDate day 0)
    | _ => r4 ← expect "T" r3; take_time utc_of_local day r4
    end
  else None.

(* ===================================================================== *)
(** * JavaScript values *)
(* ===================================================================== *)

(** A number is NaN, an infinity, or a finite number written as a decimal:
    [Finite m k] is [m / 10^k], the shortest decimal that stands for the
    number (so [1.5] is [Finite 15 1]; [Finite 150 2] is the same number).
    Positive and negative zero are not told apart: the component never
    divides. *)
Inductive number : Type :=
  | NaN
  | Infinity (negative : bool)
  | Finite (m : Z) (k : nat).

(** The values a report can hold.  [VTimestamp ms] is a Firestore
    [Timestamp], known by the instant its [toDate()] gives; [VDate tv] is a
    JavaScript [Date] with time value [tv], [None] for an invalid date;
    [VObj] is a plain object (a Firestore map or GeoPoint). *)
Inductive value : Type :=
  | VUndefined
  | VNull
  | VBool (b : bool)
  | VNum (n : number)
  | VStr (s : string)
  | VTimestamp (ms : Z)
  | VDate (tv : option Z)
  | VObj (fields : gmap string value).

(** An object, or the data of a document: its own properties by name. *)
Abbreviation Obj := (gmap string value).

(** Property access [o.k] on an object: [undefined] when absent. *)
Definition prop (o : Obj) (k : string) : value := default VUndefined (o !! k).

(** Property access [v.k] on any value that is not null or undefined (the
    component guards every such access by a truthiness test).  Of the
    properties the component reads this way, only plain objects have any. *)
Definition member (v : value) (k : string) : value :=
  match v with
  | VObj fields => prop fields k
  | _ => VUndefined
  end.

Definition ToBoolean (v : value) : bool :=
  match v with
  | VUndefined | VNull => false
  | VBool b => b
  | VNum NaN => false
  | VNum (Finite m _) => negb (m =? 0)
  | VNum (Infinity _) => true
  | VStr s => negb (String.eqb s "")
  | VTimestamp _ | VDate _ | VObj _ => true
  end.

Definition typeof (v : value) : string :=
  match v with
  | VUndefined => "undefined"
  | VBool _ => "boolean"
  | VNum _ => "number"
  | VStr _ => "string"
  | VNull | VTimestamp _ | VDate _ | VObj _ => "object"
  end.

(** [typeof v.toDate === 'function']: among the values above only a
    Firestore [Timestamp] has a [toDate] method. *)
Definition has_toDate (v : value) : bool :=
  match v with
  | VTimestamp _ => true
  | _ => false
  end.

(** ** [Number::toString] (ECMA-262)

    A finite number other than zero is [s × 10^(n - k)] for a whole number
    [s] of [k] digits that does not end in 0.  It is written in plain
    decimal notation when [-6 < n <= 21], else with an exponent. *)

(** [strip_zeros fuel a z]: the trailing zeros of [a] moved into the
    exponent [z]. *)
Fixpoint strip_zeros (fuel : nat) (a z : Z) : Z * Z :=
  match fuel with
  | O => (a, z)
  | S fuel' =>
      if (a mod 10 =? 0) && negb (a =? 0)
      then strip_zeros fuel' (a / 10) (z + 1)
      else (a, z)
  end.

Definition digits_of (n : Z) : string :=
  put_nat_digits (S (Z.to_nat (Z.log2 n))) n EmptyString.

Fixpoint zeros (n : nat) : string :=
  match n with
  | O => EmptyString
  | S n' => String "0" (zeros n')
  end.

(** The decimal [a / 10^e] for [a > 0]. *)
Definition decimal_toString (a : Z) (e : nat) : string :=
  let '(s, z) := strip_zeros (S (Z.to_nat (Z.log2 a))) a 0 in
  let ds := digits_of s in
  let k := Z.of_nat (String.length ds) in
  let n := k + z - Z.of_nat e in
  if (k <=? n) && (n <=? 21) then
    ds +:+ zeros (Z.to_nat (n - k))
  else if (0 <? n) && (n <=? 21) then
    substring 0 (Z.to_nat n) ds +:+ "." +:+ substring (Z.to_nat n) (Z.to_nat (k - n)) ds
  else if (-6 <? n) && (n <=? 0) then
    "0." +:+ zeros (Z.to_nat (- n)) +:+ ds
  else
    (if k =? 1 then ds
     else substring 0 1 ds +:+ "." +:+ substring 1 (Z.to_nat (k - 1)) ds)
    +:+ "e" +:+ (if n - 1 <? 0 then "-" else "+") +:+ digits_of (Z.abs (n - 1)).

Definition Number_toString (n : number) : string :=
  match n with
  | NaN => "NaN"
  | Infinity false => "Infinity"
  | Infinity true => "-Infinity"
  | Finite m k =>
      if m =? 0 then "0"
      else if m <? 0 then String "-" (decimal_toString (- m) k)
      else decimal_toString m k
  end.

(* ===================================================================== *)
(** * The environment and the world *)
(* ===================================================================== *)

(** What the component cannot decide: the wall clock, the host's time zone
    and date formats, whether the platform and the store accept a request,
    and when the platform answers.  A failure carries the message of the
    error.  The answer to [openURL] reaches the screen while the respond
    action waits at its [await] number [openURL_answers] (1 for the update,
    2 for the notification), or, for any other number, after the action has
    ended. *)
Record Env : Type := {
  clock : nat → Z;                  (* successive readings of [new Date()] *)
  utc_of_local : Z → Z;             (* local time value to UTC *)
  host_parse : string → option Z;   (* date formats of the engine's own *)
  openURL_fails : option string;
  openURL_answers : nat;
  updateDoc_fails : option string;
  addDoc_fails : option string
}.

Record Error : Type := { message : string }.

(** The store, the screen and the device.  The notification collections
    are only ever added to, so each is kept as the list of its documents in
    creation order, under its path.  [link_rejections] holds the rejections
    of [openURL] that the [catch] handler of line 50 has not yet been given. *)
Record World : Type := {
  store_reports : gmap string Obj;
  store_notifications : gmap string (list Obj);
  accidentReports : list Obj;
  alerts : list (string * string);
  opened_urls : list string;
  console_errors : list string;
  clock_reads : nat;
  link_rejections : list Error
}.

Definition set_store_reports (r : gmap string Obj) (w : World) : World :=
  {| store_reports := r;
     store_notifications := store_notifications w;
     accidentReports := accidentReports w;
     alerts := alerts w;
     opened_urls := opened_urls w;
     console_errors := console_errors w;
     clock_reads := clock_reads w;
     link_rejections := link_rejections w |}.

Definition set_store_notifications (n : gmap string (list Obj)) (w : World) : World :=
  {| store_reports := store_reports w;
     store_notifications := n;
     accidentReports := accidentReports w;
     alerts := alerts w;
     opened_urls := opened_urls w;
     console_errors := console_errors w;
     clock_reads := clock_reads w;
     link_rejections := link_rejections w |}.

Definition set_accidentReports (l : list Obj) (w : World) : World :=
  {| store_reports := store_reports w;
     store_notifications := store_notifications w;
     accidentReports := l;
     alerts := alerts w;
     opened_urls := opened_urls w;
     console_errors := console_errors w;
     clock_reads := clock_reads w;
     link_rejections := link_rejections w |}.

Definition set_alerts (l : list (string * string)) (w : World) : World :=
  {| store_reports := store_reports w;
     store_notifications := store_notifications w;
     accidentReports := accidentReports w;
     alerts := l;
     opened_urls := opened_urls w;
     console_errors := console_errors w;
     clock_reads := clock_reads w;
     link_rejections := link_rejections w |}.

Definition set_opened_urls (l : list string) (w : World) : World :=
  {| store_reports := store_reports w;
     store_notifications := store_notifications w;
     accidentReports := accidentReports w;
     alerts := alerts w;
     opened_urls := l;
     console_errors := console_errors w;
     clock_reads := clock_reads w;
     link_rejections := link_rejections w |}.

Definition set_console_errors (l : list string) (w : World) : World :=
  {| store_reports := store_reports w;
     store_notifications := store_notifications w;
     accidentReports := accidentReports w;
     alerts := alerts w;
     opened_urls := opened_urls w;
     console_errors := l;
     clock_reads := clock_reads w;
     link_rejections := link_rejections w |}.

Definition set_clock_reads (n : nat) (w : World) : World :=
  {| store_reports := store_reports w;
     store_notifications := store_notifications w;
     accidentReports := accidentReports w;
     alerts := alerts w;
     opened_urls := opened_urls w;
     console_errors := console_errors w;
     clock_reads := n;
     link_rejections := link_rejections w |}.

Definition set_link_rejections (l : list Error) (w : World) : World :=
  {| store_reports := store_reports w;
     store_notifications := store_notifications w;
     accidentReports := accidentReports w;
     alerts := alerts w;
     opened_urls := opened_urls w;
     console_errors := console_errors w;
     clock_reads := clock_reads w;
     link_rejections := l |}.

Inductive Result (A : Type) : Type :=
  | Ok (a : A)
  | Throw (e : Error).
Arguments Ok {A} a.
Arguments Throw {A} e.

(** Computations of the component: they read the environment, change the
    world and may throw. *)
Definition M (A : Type) : Type := Env → World → Result A * World.

Definition ret {A} (a : A) : M A := fun _ w => (Ok a, w).

Definition bind {A B} (m : M A) (k : A → M B) : M B := fun env w =>
  match m env w with
  | (Ok a, w') => k a env w'
  | (Throw e, w') => (Throw e, w')
  end.

Definition throw {A} (msg : string) : M A := fun _ w => (Throw {| message := msg |}, w).

Definition try_catch {A} (body : M A) (handler : Error → M A) : M A := fun env w =>
  match body env w with
  | (Ok a, w') => (Ok a, w')
  | (Throw e, w') => handler e env w'
  end.

#[export] Instance M_ret : MRet M := @ret.
#[export] Instance M_bind : MBind M := fun A B k m => bind m k.

Definition ask : M Env := fun env w => (Ok env, w).

(** The world after a computation. *)
Definition exec {A} (m : M A) (env : Env) (w : World) : World := snd (m env w).

(* ===================================================================== *)
(** * The runtime and the collaborators *)
(* ===================================================================== *)

(** [Date.parse]: the Date Time String Format, else whatever the engine
    accepts. *)
Definition Date_parse (env : Env) (s : string) : option Z :=
  match parse_iso (utc_of_local env) s with
  | Some t => Some t
  | None => host_parse env s
  end.

(** [new Date(n)] for a number: NaN beyond the range of dates, else the
    integral part. *)
Definition Date_of_number (n : number) : option Z :=
  match n with
  | Finite m k =>
      if Z.abs m <=? maxTime * 10 ^ Z.of_nat k
      then Some (Z.quot m (10 ^ Z.of_nat k))
      else None
  | _ => None
  end.

(** [new Date(v)]: a string is parsed, a date is copied, an object is first
    turned into the string "[object Object]", anything else is turned into
    a number.  (An object with a field of its own named [toString] cannot be
    turned into a string, [new Date] throws on it: the statements about the
    callback that depend on it leave such a timestamp out.) *)
Definition Date_construct (env : Env) (v : value) : option Z :=
  match v with
  | VDate tv => tv
  | VStr s => Date_parse env s
  | VNum n => Date_of_number n
  | VBool b => Some (if b then 1 else 0)
  | VNull => Some 0
  | VUndefined => None
  | VObj _ => Date_parse env "[object Object]"
  | VTimestamp _ => None
  end.

Definition new_Date (v : value) : M value :=
  env ← ask; ret (VDate (Date_construct env v)).

(** [new Date()]: the next reading of the clock. *)
Definition Date_now : M Z := fun env w =>
  (Ok (clock env (clock_reads w)), set_clock_reads (S (clock_reads w)) w).

(** [timestamp.toDate()] of a Firestore [Timestamp]. *)
Definition toDate (v : value) : value :=
  match v with
  | VTimestamp ms => VDate (TimeClip ms)
  | _ => VUndefined
  end.

Definition Alert_alert (title msg : string) : M unit := fun _ w =>
  (Ok tt, set_alerts (alerts w ++ [(title, msg)]) w).

Definition console_error (label : string) (e : Error) : M unit := fun _ w =>
  (Ok tt, set_console_errors (console_errors w ++ [label +:+ " " +:+ message e]) w).

(** ** [Linking] and the event loop *)

(** Lines 50-52: the handler given to [catch]. *)
Definition on_link_error (err : Error) : M unit :=
  Alert_alert "Error" ("Failed to open Google Maps: " +:+ message err).

(** [Linking.openURL(url)]: the request is handed to the platform and the
    call returns its promise at once; the respond action never waits for
    it.  When the platform rejects the request, the rejection stays with
    the promise until the event loop gives it to the handler. *)
Definition Linking_openURL (url : string) : M unit := fun env w =>
  (Ok tt,
   set_link_rejections
     (link_rejections w
      ++ match openURL_fails env with
         | Some msg => [ {| message := msg |} ]
         | None => []
         end)
     (set_opened_urls (opened_urls w ++ [url]) w)).

Fixpoint deliver (errs : list Error) : M unit :=
  match errs with
  | [] => ret tt
  | err :: rest => on_link_error err;; deliver rest
  end.

(** The turn of the event loop in which the answers of the platform
    arrive: every rejection that waits is given to the handler. *)
Definition link_answers : M unit := fun env w =>
  deliver (link_rejections w) env (set_link_rejections [] w).

(** [await p], the [n]-th of the respond action: the request [p] is made,
    the action is suspended and the event loop runs, then the action goes
    on with the result of [p] or throws its error. *)
Definition await {A} (n : nat) (p : M A) : M A := fun env w =>
  match p env w with
  | (r, w') =>
      (r, if (openURL_answers env =? n)%nat then exec link_answers env w' else w')
  end.

(** ** Paths of the store

    [ResourcePath.fromString] of the Firestore SDK: every argument is cut
    at its slashes and the empty pieces are dropped; an argument that holds
    two slashes in a row is refused, and one that is not a string has no
    [indexOf]. *)
Fixpoint has_slash (s : string) : bool :=
  match s with
  | EmptyString => false
  | String c s' => Ascii.eqb c "/" || has_slash s'
  end.

Fixpoint has_double_slash (s : string) : bool :=
  match s with
  | EmptyString => false
  | String c s' =>
      (Ascii.eqb c "/"
       && match s' with
          | String c' _ => Ascii.eqb c' "/"
          | EmptyString => false
          end)
      || has_double_slash s'
  end.

(** [s.split('/')]. *)
Fixpoint split_slash (s : string) : list string :=
  match s with
  | EmptyString => [EmptyString]
  | String c s' =>
      if Ascii.eqb c "/" then EmptyString :: split_slash s'
      else match split_slash s' with
           | piece :: pieces => String c piece :: pieces
           | [] => [String c EmptyString]
           end
  end.

Definition path_segments (s : string) : list string :=
  filter (λ piece, piece ≠ EmptyString) (split_slash s).

Fixpoint ResourcePath_fromString (pathComponents : list value) : Result (list string) :=
  match pathComponents with
  | [] => Ok []
  | VStr path :: rest =>
      if has_double_slash path
      then Throw {| message := "Invalid segment. Paths must not contain // in them." |}
      else
        match ResourcePath_fromString rest with
        | Ok segments => Ok (path_segments path ++ segments)%list
        | Throw e => Throw e
        end
  | _ :: _ => Throw {| message := "path.indexOf is not a function" |}
  end.

(** The segments of a path, joined. *)
Fixpoint join_segments (segments : list string) : string :=
  match segments with
  | [] => EmptyString
  | [s] => s
  | s :: rest => s +:+ "/" +:+ join_segments rest
  end.

(** The path of a collection has an odd number of segments. *)
Definition collection_path (pathComponents : list value) : Result string :=
  match ResourcePath_fromString pathComponents with
  | Ok segments =>
      if Nat.even (List.length segments)
      then Throw {| message := "Invalid collection reference. Collection references must have an odd number of segments." |}
      else Ok (join_segments segments)
  | Throw e => Throw e
  end.

Definition of_result {A} (r : Result A) : M A := fun _ w => (r, w).

(** [doc(db, 'accidentReports', id)]: a reference to a report.  The
    identifier has to be a non-empty string; it is taken as one path
    segment. *)
Definition doc (id : value) : M string :=
  match id with
  | VStr s =>
      if String.eqb s "" then throw "Invalid document reference." else ret s
  | _ => throw "Invalid document reference."
  end.

(** [collection(db, 'users', userId, 'notifications')]: the path of the
    user's notifications. *)
Definition collection (userId : value) : M string :=
  of_result (collection_path [VStr "users"; userId; VStr "notifications"]).

(** [updateDoc(ref, fields)]: the fields given replace or extend those of
    the stored document, the others stay; there must be a document. *)
Definition updateDoc (ref : string) (fields : Obj) : M unit := fun env w =>
  match updateDoc_fails env with
  | Some msg => (Throw {| message := msg |}, w)
  | None =>
      match store_reports w !! ref with
      | None => (Throw {| message := "No document to update." |}, w)
      | Some old =>
          (Ok tt, set_store_reports (<[ref := fields ∪ old]> (store_reports w)) w)
      end
  end.

(** [addDoc(ref, data)]: one new document in the collection. *)
Definition addDoc (ref : string) (data : Obj) : M unit := fun env w =>
  match addDoc_fails env with
  | Some msg => (Throw {| message := msg |}, w)
  | None =>
      (Ok tt,
       set_store_notifications
         (<[ref := (default [] (store_notifications w !! ref) ++ [data])%list]>
            (store_notifications w)) w)
  end.

(** [setAccidentReports(reports)]: the list shown is replaced. *)
Definition setAccidentReports (reports : list Obj) : M unit := fun _ w =>
  (Ok tt, set_accidentReports reports w).

(** ** [Array.prototype.sort]

    The comparator returns a number, [None] for NaN; NaN counts as zero.
    An element moves behind another only when the comparator puts it
    strictly after, so equal elements keep their order (the sort is
    stable). *)
Definition stays_before {A} (cmp : A → A → option Z) (x y : A) : bool :=
  match cmp x y with
  | Some v => v <=? 0
  | None => true
  end.

Fixpoint sort_insert {A} (cmp : A → A → option Z) (x : A) (l : list A) : list A :=
  match l with
  | [] => [x]
  | y :: l' => if stays_before cmp x y then x :: l else y :: sort_insert cmp x l'
  end.

Definition Array_sort {A} (cmp : A → A → option Z) (l : list A) : list A :=
  foldr (sort_insert cmp) [] l.

(** The time value of a date, as the subtraction of two dates reads it. *)
Definition Date_valueOf (v : value) : option Z :=
  match v with
  | VDate tv => tv
  | _ => None
  end.

(* ===================================================================== *)
(** * The component *)
(* ===================================================================== *)

(** One document of a query snapshot: its identifier in the store and its
    data. *)
Record DocSnap : Type := { snap_id : string; snap_data : Obj }.

(** Lines 19-28: the timestamp of a report as a [Date]. *)
Definition normalize_timestamp (data : Obj) : M value :=
  if ToBoolean (prop data "timestamp") && has_toDate (prop data "timestamp")
  then ret (toDate (prop data "timestamp"))
  else if ToBoolean (prop data "timestamp")
  then new_Date (prop data "timestamp")
  else now ← Date_now; ret (VDate (Some now)).

(** Lines 30-34: [{ id: docSnap.id, ...data, timestamp: timestamp }]. *)
Definition report_entry (docSnap : DocSnap) (timestamp : value) : Obj :=
  <["timestamp" := timestamp]> (snap_data docSnap ∪ {["id" := VStr (snap_id docSnap)]}).

(** Lines 17-35: the body of [querySnapshot.forEach]. *)
Definition push_report (reports : list Obj) (docSnap : DocSnap) : M (list Obj) :=
  timestamp ← normalize_timestamp (snap_data docSnap);
  ret (reports ++ [report_entry docSnap timestamp])%list.

Fixpoint forEach (querySnapshot : list DocSnap) (reports : list Obj) : M (list Obj) :=
  match querySnapshot with
  | [] => ret reports
  | docSnap :: rest =>
      reports' ← push_report reports docSnap;
      forEach rest reports'
  end.

(** Line 38: [(a, b) => b.timestamp - a.timestamp]. *)
Definition by_timestamp_desc (a b : Obj) : option Z :=
  match Date_valueOf (prop b "timestamp"), Date_valueOf (prop a "timestamp") with
  | Some tb, Some ta => Some (tb - ta)
  | _, _ => None
  end.

(** Lines 15-41: the callback of [onSnapshot]. *)
Definition onSnapshot_callback (querySnapshot : list DocSnap) : M unit :=
  reports ← forEach querySnapshot [];
  setAccidentReports (Array_sort by_timestamp_desc reports).

(** Line 48: the test on [item.location]. *)
Definition location_is_numeric (item : Obj) : bool :=
  ToBoolean (prop item "location")
  && String.eqb (typeof (member (prop item "location") "latitude")) "number"
  && String.eqb (typeof (member (prop item "location") "longitude")) "number".

Definition number_of (v : value) : number :=
  match v with
  | VNum n => n
  | _ => NaN
  end.

(** Line 49: the maps link. *)
Definition maps_url (item : Obj) : string :=
  "https://www.google.com/maps/search/?api=1&query="
  +:+ Number_toString (number_of (member (prop item "location") "latitude"))
  +:+ ","
  +:+ Number_toString (number_of (member (prop item "location") "longitude")).

(** Lines 47-55: open the map or report the location.  The handler of the
    [catch], [on_link_error], is run by the event loop ([link_answers]). *)
Definition open_maps (item : Obj) : M unit :=
  if location_is_numeric item then
    Linking_openURL (maps_url item)
  else
    Alert_alert "Location Error" "Invalid location data for this accident.".

Definition notification (now : Z) : Obj :=
  <["message" := VStr "🚑 Help is on the way! A driver has responded to your accident report."]>
  (<["timestamp" := VStr (toISOString now)]>
  (<["read" := VBool false]>
  (<["type" := VStr "accident_response"]> ∅))).

(** Lines 60-63: mark the report. *)
Definition update_status (item : Obj) : M unit :=
  reportRef ← doc (prop item "id");
  await 1 (updateDoc reportRef {["status" := VStr "Help on way"]}).

(** Lines 67-73: notify the user who reported. *)
Definition send_notification (item : Obj) : M unit :=
  notificationsRef ← collection (prop item "userId");
  now ← Date_now;
  await 2 (addDoc notificationsRef (notification now)).

(** Lines 59-74: the body of the [try]. *)
Definition update_and_notify (item : Obj) : M unit :=
  update_status item;;
  if ToBoolean (prop item "userId") then send_notification item else ret tt.

(** Lines 75-78: the [catch]. *)
Definition on_update_error (error : Error) : M unit :=
  console_error "Error adding notification:" error;;
  Alert_alert "Update Error" ("Could not update status: " +:+ message error).

(** Lines 57-78: the [try] and its [catch]. *)
Definition respond_writes (item : Obj) : M unit :=
  try_catch (update_and_notify item) on_update_error.

(** Lines 46-79. *)
Definition handleRespond (item : Obj) : M unit :=
  open_maps item;;
  respond_writes item.

(* ===================================================================== *)
(** * The properties stated of the component *)
(* ===================================================================== *)

(** ** The list of reports *)

(** [a.timestamp >= b.timestamp] on two entries of the list; false when
    either date is invalid, as in JavaScript. *)
Definition newer_or_equal (a b : Obj) : bool :=
  match Date_valueOf (prop a "timestamp"), Date_valueOf (prop b "timestamp") with
  | Some ta, Some tb => tb <=? ta
  | _, _ => false
  end.

(** Every entry is at least as new as the one after it. *)
Definition descending (l : list Obj) : Prop :=
  ∀ i a b, l !! i = Some a → l !! S i = Some b → newer_or_equal a b = true.


(** The world is as it was, but for the number of clock readings. *)
Definition only_clock_read (w w' : World) : Prop :=
  store_reports w' = store_reports w
  ∧ store_notifications w' = store_notifications w
  ∧ accidentReports w' = accidentReports w
  ∧ alerts w' = alerts w
  ∧ opened_urls w' = opened_urls w
  ∧ console_errors w' = console_errors w
  ∧ (clock_reads w ≤ clock_reads w')%nat.

(** The timestamp given to a record during a callback that reads the clock
    from reading [lo] up to, not including, reading [hi]. *)
Definition normalized (env : Env) (lo hi : nat) (data : Obj) (ts : value) : Prop :=
  (ToBoolean (prop data "timestamp") = true →
   has_toDate (prop data "timestamp") = true →
   ts = toDate (prop data "timestamp"))
  ∧ (ToBoolean (prop data "timestamp") = true →
     has_toDate (prop data "timestamp") = false →
     ts = VDate (Date_construct env (prop data "timestamp")))
  ∧ (ToBoolean (prop data "timestamp") = false →
     ∃ n, (lo ≤ n < hi)%nat ∧ ts = VDate (Some (clock env n))).

(** [new Date] can turn the value into a primitive (see [Date_construct]):
    it is not an object with a field of its own named [toString]. *)
Definition converts_to_primitive (v : value) : bool :=
  match v with
  | VObj fields => negb (bool_decide (is_Some (fields !! "toString")))
  | _ => true
  end.

(** The entry published for a document. *)
Definition published_as (env : Env) (lo hi : nat) (d : DocSnap) (r : Obj) : Prop :=
  ∃ ts, r = report_entry d ts ∧ normalized env lo hi (snap_data d) ts.

(** The precedence as the specification words it, the second case taken
    whenever the field is present. *)
Definition spec_normalize_timestamp (data : Obj) : M value :=
  match data !! "timestamp" with
  | Some ts => if has_toDate ts then ret (toDate ts) else new_Date ts
  | None => now ← Date_now; ret (VDate (Some now))
  end.

(** The timestamp of a record becomes a valid date. *)
Definition becomes_valid_date (env : Env) (d : DocSnap) : bool :=
  if ToBoolean (prop (snap_data d) "timestamp")
     && has_toDate (prop (snap_data d) "timestamp")
  then bool_decide (is_Some (Date_valueOf (toDate (prop (snap_data d) "timestamp"))))
  else if ToBoolean (prop (snap_data d) "timestamp")
  then bool_decide (is_Some (Date_construct env (prop (snap_data d) "timestamp")))
  else true.

(** A snapshot of one record whose timestamp is the number 0. *)
Definition epoch_snapshot : list DocSnap :=
  [ {| snap_id := "r0"; snap_data := {["timestamp" := VNum (Finite 0 0)]} |} ].

(** A snapshot of two records, the first with a timestamp that is not a
    date. *)
Definition malformed_snapshot : list DocSnap :=
  [ {| snap_id := "a"; snap_data := {["timestamp" := VStr "not-a-date"]} |};
    {| snap_id := "b"; snap_data := {["timestamp" := VStr "2024-01-01T00:00:00Z"]} |} ].

(** A snapshot of three records: an older one, a newer one whose data has
    an [id] of its own, and one without timestamp. *)
Definition sample_snapshot : list DocSnap :=
  [ {| snap_id := "a"; snap_data := {["timestamp" := VStr "2024-01-01T00:00:00Z"]} |};
    {| snap_id := "b";
       snap_data := <["id" := VStr "mine"]> {["timestamp" := VTimestamp 1704067200001]} |};
    {| snap_id := "c"; snap_data := ∅ |} ].

(** ** The respond action *)

Definition succeeds {A} (m : M A) (env : Env) (w : World) : Prop :=
  ∃ a, fst (m env w) = Ok a.

Definition fails {A} (m : M A) (env : Env) (w : World) : Prop :=
  ∃ e, fst (m env w) = Throw e.

(** The status update goes through: the report names a stored document
    [old] by a usable identifier [id] and the store accepts the write. *)
Definition update_applies (item : Obj) (env : Env) (w : World)
    (id : string) (old : Obj) : Prop :=
  prop item "id" = VStr id ∧ id ≠ "" ∧ updateDoc_fails env = None
  ∧ store_reports w !! id = Some old.

(** The notification goes through: the user named by the report gives the
    path [ref] of a collection and the store accepts the write. *)
Definition notification_applies (item : Obj) (env : Env) (ref : string) : Prop :=
  collection_path [VStr "users"; prop item "userId"; VStr "notifications"] = Ok ref
  ∧ addDoc_fails env = None.

(** The path of the notifications of a user. *)
Definition notifications_path (uid : string) : string :=
  "users/" +:+ uid +:+ "/notifications".

(** The alert of the [catch]. *)
Definition update_error_alert (e : Error) : string * string :=
  ("Update Error", "Could not update status: " +:+ message e).

(** What lines 57-78 do, from world [w] to world [w'], showing the alerts
    [shown]: either the update fails and nothing is written, or the update
    is applied and then the user is absent, or the notification fails, or
    the notification is added. *)
Definition write_outcome (item : Obj) (env : Env) (w w' : World)
    (shown : list (string * string)) : Prop :=
  (fails (update_status item) env w
   ∧ store_reports w' = store_reports w
   ∧ store_notifications w' = store_notifications w
   ∧ ∃ e, shown = [update_error_alert e])
  ∨ (∃ id old,
       update_applies item env w id old
       ∧ store_reports w'
         = <[id := {["status" := VStr "Help on way"]} ∪ old]> (store_reports w)
       ∧ ((ToBoolean (prop item "userId") = false
           ∧ store_notifications w' = store_notifications w
           ∧ shown = [])
          ∨ (ToBoolean (prop item "userId") = true
             ∧ (∀ ref, ¬ notification_applies item env ref)
             ∧ store_notifications w' = store_notifications w
             ∧ ∃ e, shown = [update_error_alert e])
          ∨ (∃ ref,
               notification_applies item env ref
               ∧ store_notifications w'
                 = <[ref :=
                      (default [] (store_notifications w !! ref)
                       ++ [notification (clock env (clock_reads w))])%list]>
                     (store_notifications w)
               ∧ shown = []))).

(** The world is as it was, but for the alerts [link] shown by the handler
    of the link and the rejections that still wait for it. *)
Definition link_answered (w w' : World) (link : list (string * string)) : Prop :=
  store_reports w' = store_reports w
  ∧ store_notifications w' = store_notifications w
  ∧ accidentReports w' = accidentReports w
  ∧ opened_urls w' = opened_urls w
  ∧ console_errors w' = console_errors w
  ∧ clock_reads w' = clock_reads w
  ∧ alerts w' = (alerts w ++ link)%list
  ∧ Forall (λ a, a.1 = "Error") link.

(** A field of a stored report. *)
Definition stored_field (w : World) (id k : string) : option value :=
  store_reports w !! id ≫= (.!! k).

(** The notifications of a user, oldest first. *)
Definition notifications_of (w : World) (userId : string) : list Obj :=
  default [] (store_notifications w !! notifications_path userId).

(** The messages of the alerts shown under a title. *)
Definition titled (title : string) (l : list (string * string)) : list string :=
  snd <$> filter (λ a, a.1 = title) l.

Definition alerts_titled (title : string) (w : World) : list string :=
  titled title (alerts w).


(** ** Sample data *)

Definition sample_env : Env :=
  {| clock := λ n, 1700000000000 + Z.of_nat n;
     utc_of_local := λ t, t;
     host_parse := λ _, None;
     openURL_fails := None;
     openURL_answers := 0;
     updateDoc_fails := None;
     addDoc_fails := None |}.

(** The same, but the store rejects the update of a report. *)
Definition update_rejected_env : Env :=
  {| clock := clock sample_env;
     utc_of_local := utc_of_local sample_env;
     host_parse := host_parse sample_env;
     openURL_fails := None;
     openURL_answers := 0;
     updateDoc_fails := Some "Missing or insufficient permissions.";
     addDoc_fails := None |}.

(** The same, but the store rejects a new notification. *)
Definition add_rejected_env : Env :=
  {| clock := clock sample_env;
     utc_of_local := utc_of_local sample_env;
     host_parse := host_parse sample_env;
     openURL_fails := None;
     openURL_answers := 0;
     updateDoc_fails := None;
     addDoc_fails := Some "Missing or insufficient permissions." |}.

(** The same, but the platform cannot open the link, and says so while the
    update is awaited. *)
Definition link_rejected_env : Env :=
  {| clock := clock sample_env;
     utc_of_local := utc_of_local sample_env;
     host_parse := host_parse sample_env;
     openURL_fails := Some "No handler.";
     openURL_answers := 1;
     updateDoc_fails := None;
     addDoc_fails := None |}.

(** The same, but the answer comes after the respond action has ended and
    the store has rejected the update. *)
Definition link_rejected_late_env : Env :=
  {| clock := clock sample_env;
     utc_of_local := utc_of_local sample_env;
     host_parse := host_parse sample_env;
     openURL_fails := Some "No handler.";
     openURL_answers := 0;
     updateDoc_fails := Some "Missing or insufficient permissions.";
     addDoc_fails := None |}.

Definition sample_location : value :=
  VObj (<["latitude" := VNum (Finite 15 1)]> (<["longitude" := VNum (Finite 25 1)]> ∅)).

(** The data of report r1, as stored. *)
Definition r1_data : Obj :=
  <["location" := sample_location]>
  (<["status" := VStr "Pending"]>
  (<["userId" := VStr "u1"]>
  (<["timestamp" := VStr "2024-01-01T00:00:00Z"]> ∅))).

(** Report r1 as the list shows it. *)
Definition r1 : Obj :=
  <["timestamp" := VDate (Some 1704067200000)]> (<["id" := VStr "r1"]> r1_data).


(** A report without location and without user. *)
Definition r2_data : Obj :=
  <["location" := VNull]> (<["status" := VStr "Pending"]> ∅).

Definition r2 : Obj :=
  <["timestamp" := VDate (Some 1704067200000)]> (<["id" := VStr "r2"]> r2_data).

Definition sample_world : World :=
  {| store_reports := <["r1" := r1_data]> (<["r2" := r2_data]> ∅);
     store_notifications := ∅;
     accidentReports := [];
     alerts := [];
     opened_urls := [];
     console_errors := [];
     clock_reads := 0;
     link_rejections := [] |}.

(* ===================================================================== *)
(** * The rest of the records screen *)
(* ===================================================================== *)




(** Line 113: the key of a row. *)
Definition keyExtractor (item : Obj) : value := prop item "id".



(** ** The earlier version of the screen (the second half of the file) *)




(** Lines 194-214: the same link, the same status update, no
    notification. *)
Definition handleRespond_v1 (item : Obj) : M unit :=
  open_maps item;;
  try_catch (update_status item) (fun error =>
    Alert_alert "Update Error" ("Could not update status: " +:+ message error)).

(* ===================================================================== *)
(** * The main screen (src/app/main.js) *)
(* ===================================================================== *)

(** What the device answers: the status of the permission request, and the
    coordinates of the position request, [None] when that request fails. *)
Record Device : Type := {
  permission_status : string;
  current_position : option Obj
}.

(** The state of the screen; an alert records the title and the value
    passed as its message. *)
Record MainScreen : Type := {
  location : value;
  errorMsg : value;
  main_alerts : list (string * value)
}.

(** Lines 13-14: both states start as [null]. *)
Definition initial_screen : MainScreen :=
  {| location := VNull; errorMsg := VNull; main_alerts := [] |}.

(** Lines 17-28: ask for the permission, then for the position.  A failed
    position request rejects the promise of the effect, which nothing
    handles: the state stays as it is. *)
Definition acquire_location (dev : Device) (s : MainScreen) : MainScreen :=
  if negb (String.eqb (permission_status dev) "granted") then
    {| location := location s;
       errorMsg := VStr "Permission to access location was denied";
       main_alerts :=
         (main_alerts s
          ++ [("Location Required",
               VStr "Please enable location services to use this app.")])%list |}
  else
    match current_position dev with
    | Some coords =>
        {| location := VObj coords;
           errorMsg := errorMsg s;
           main_alerts := main_alerts s |}
    | None => s
    end.

(** Lines 63-73: the region of the map. *)
Definition map_region (loc : value) : value :=
  if ToBoolean loc then
    VObj (<["latitude" := member loc "latitude"]>
         (<["longitude" := member loc "longitude"]>
         (<["latitudeDelta" := VNum (Finite 1 2)]>
         (<["longitudeDelta" := VNum (Finite 1 2)]> ∅))))
  else VUndefined.

(** [v?.k]. *)
Definition optional_member (v : value) (k : string) : value :=
  match v with
  | VNull | VUndefined => VUndefined
  | _ => member v k
  end.

(** Lines 94-101: the parameters the report screen is opened with. *)
Definition report_params (loc userId : value) : Obj :=
  <["lat" := optional_member loc "latitude"]>
  (<["lng" := optional_member loc "longitude"]>
  (<["userId" := userId]> ∅)).

(** One change of a query snapshot: its type ('added', 'modified' or
    'removed') and the data of its document. *)
Record DocChange : Type := { change_type : string; change_doc : Obj }.

(** Lines 32-35: the collection the screen listens to, [None] when the
    effect returns without subscribing. *)
Definition start_watcher (userId : value) : Result (option string) :=
  if negb (ToBoolean userId) then Ok None
  else
    match collection_path [VStr "users"; userId; VStr "notifications"] with
    | Ok notificationsRef => Ok (Some notificationsRef)
    | Throw e => Throw e
    end.

(** Line 35: [where('read', '==', false)]. *)
Definition is_unread (d : Obj) : bool :=
  match prop d "read" with
  | VBool false => true
  | _ => false
  end.

(** Lines 39-41. *)
Definition on_change (shown : list (string * value)) (change : DocChange)
  : list (string * value) :=
  if String.eqb (change_type change) "added"
  then (shown ++ [("Update Received", prop (change_doc change) "message")])%list
  else shown.

(** Lines 37-43: the callback of the listener. *)
Definition on_notifications (changes : list DocChange) (s : MainScreen) : MainScreen :=
  {| location := location s;
     errorMsg := errorMsg s;
     main_alerts := foldl on_change (main_alerts s) changes |}.

(** ** More sample data *)

Definition granted_device : Device :=
  {| permission_status := "granted";
     current_position :=
       Some (<["latitude" := VNum (Finite 15 1)]> (<["longitude" := VNum (Finite 25 1)]> ∅)) |}.

Definition denied_device : Device :=
  {| permission_status := "denied"; current_position := None |}.

(** A snapshot of two records with the same timestamp and one newer
    record. *)
Definition tied_snapshot : list DocSnap :=
  [ {| snap_id := "a"; snap_data := {["timestamp" := VTimestamp 1704067200000]} |};
    {| snap_id := "b"; snap_data := {["timestamp" := VTimestamp 1704067200001]} |};
    {| snap_id := "c"; snap_data := {["timestamp" := VStr "2024-01-01T00:00:00Z"]} |} ].

(* ===================================================================== *)
(** * Facts about decimal digits *)
(* ===================================================================== *)

Lemma digit_cases (d : Z) :
  0 <= d <= 9 →
  d = 0 ∨ d = 1 ∨ d = 2 ∨ d = 3 ∨ d = 4 ∨ d = 5 ∨ d = 6 ∨ d = 7 ∨ d = 8 ∨ d = 9.
Proof. lia. Qed.

Ltac each_digit d H :=
  destruct (digit_cases d H) as [->|[->|[->|[->|[->|[->|[->|[->|[->| ->]]]]]]]]].

Lemma digit_of_ascii_of_digit (d : Z) :
  0 <= d <= 9 → digit_of_ascii (ascii_of_digit d) = Some d.
Proof. intros H. each_digit d H; reflexivity. Qed.

Lemma ascii_of_digit_not_sign (d : Z) :
  0 <= d <= 9 →
  Ascii.eqb (ascii_of_digit d) "+" = false ∧ Ascii.eqb (ascii_of_digit d) "-" = false.
Proof. intros H. each_digit d H; split; reflexivity. Qed.

Lemma take_put_digits_acc (w v : nat) (n acc : Z) (rest : string) :
  0 <= n < 10 ^ Z.of_nat w →
  take_digits_acc (w + v) acc (put_digits_acc w n rest)
  = take_digits_acc v (acc * 10 ^ Z.of_nat w + n) rest.
Proof.
  revert v n rest. induction w as [|w IH]; intros v n rest Hn.
  - simpl in *. f_equal. lia.
  - rewrite Nat2Z.inj_succ, Z.pow_succ_r in Hn by lia.
    cbn [put_digits_acc]. replace (S w + v)%nat with (w + S v)%nat by lia.
    rewrite IH by (Z.to_euclidean_division_equations; lia).
    cbn [take_digits_acc].
    rewrite digit_of_ascii_of_digit by (Z.to_euclidean_division_equations; lia).
    f_equal. rewrite Nat2Z.inj_succ, Z.pow_succ_r by lia.
    Z.to_euclidean_division_equations; lia.
Qed.

Lemma take_put_digits (w : nat) (n : Z) (rest : string) :
  0 <= n < 10 ^ Z.of_nat w →
  take_digits w (put_digits w n rest) = Some (n, rest).
Proof.
  intros Hn. unfold take_digits, put_digits.
  rewrite <- (Nat.add_0_r w) at 1. rewrite take_put_digits_acc by done.
  cbn [take_digits_acc]. replace (0 * 10 ^ Z.of_nat w + n) with n by lia. done.
Qed.

Lemma put_digits_head (w : nat) (n : Z) (rest : string) :
  0 <= n →
  ∃ d r, 0 <= d <= 9 ∧ put_digits (S w) n rest = String (ascii_of_digit d) r.
Proof.
  unfold put_digits. revert n rest. induction w as [|w IH]; intros n rest Hn.
  - exists (n mod 10), rest. split; [|done]. Z.to_euclidean_division_equations; lia.
  - change (put_digits_acc (S (S w)) n rest)
      with (put_digits_acc (S w) (n / 10) (String (ascii_of_digit (n mod 10)) rest)).
    apply IH. Z.to_euclidean_division_equations; lia.
Qed.

(* ===================================================================== *)
(** * Facts about time values *)
(* ===================================================================== *)

Lemma YearFromDay_spec (d : Z) :
  DayFromYear (YearFromDay d) <= d < DayFromYear (YearFromDay d + 1).
Proof.
  unfold YearFromDay. cbv zeta.
  destruct (Z.leb_spec (DayFromYear (1970 + d * 400 / 146097 + 1)) d);
    [|destruct (Z.ltb_spec d (DayFromYear (1970 + d * 400 / 146097)))];
    unfold DayFromYear in *; Z.to_euclidean_division_equations; lia.
Qed.

Lemma DaysInYear_DayFromYear (y : Z) :
  DayFromYear (y + 1) = DayFromYear y + DaysInYear y.
Proof.
  unfold DaysInYear, DayFromYear.
  destruct (Z.eqb_spec (y mod 4) 0); cbn [negb];
    [destruct (Z.eqb_spec (y mod 100) 0); cbn [negb];
       [destruct (Z.eqb_spec (y mod 400) 0); cbn [negb]|]|];
    Z.to_euclidean_division_equations; lia.
Qed.

Lemma DaysInYear_cases (y : Z) : DaysInYear y = 365 ∨ DaysInYear y = 366.
Proof.
  unfold DaysInYear.
  destruct (negb (y mod 4 =? 0)), (negb (y mod 100 =? 0)), (negb (y mod 400 =? 0));
    auto.
Qed.

Lemma InLeapYear_DaysInYear (t : Z) :
  DaysInYear (YearFromTime t) = 365 + InLeapYear t.
Proof.
  unfold InLeapYear. destruct (DaysInYear_cases (YearFromTime t)) as [-> | ->]; done.
Qed.

Lemma DayWithinYear_range (t : Z) :
  0 <= DayWithinYear t < 365 + InLeapYear t.
Proof.
  rewrite <- InLeapYear_DaysInYear. unfold DayWithinYear, YearFromTime.
  pose proof (YearFromDay_spec (Day t)) as H.
  rewrite DaysInYear_DayFromYear in H. lia.
Qed.

Lemma InLeapYear_cases (t : Z) : InLeapYear t = 0 ∨ InLeapYear t = 1.
Proof. unfold InLeapYear. destruct (_ =? _); auto. Qed.

Lemma MonthFromTime_range (t : Z) : 0 <= MonthFromTime t <= 11.
Proof.
  unfold MonthFromTime. cbv zeta.
  repeat (destruct (_ <? _); [lia|]). lia.
Qed.

Lemma DateFromTime_range (t : Z) : 1 <= DateFromTime t <= 31.
Proof.
  unfold DateFromTime, MonthFromTime. cbv zeta.
  pose proof (DayWithinYear_range t). pose proof (InLeapYear_cases t).
  repeat match goal with
         | |- context [?a <? ?b] => destruct (Z.ltb_spec a b); cbn
         end; lia.
Qed.

Lemma MakeDay_of_time (t : Z) :
  MakeDay (YearFromTime t) (MonthFromTime t) (DateFromTime t) = Day t.
Proof.
  pose proof (MonthFromTime_range t) as Hm.
  unfold MakeDay. cbv zeta.
  rewrite Z.div_small, Z.mod_small, Z.add_0_r by lia.
  fold (InLeapYear t). unfold DateFromTime, DayWithinYear. lia.
Qed.

Lemma MakeTime_of_time (t : Z) :
  MakeDate (Day t)
    (MakeTime (HourFromTime t) (MinFromTime t) (SecFromTime t) (msFromTime t)) = t.
Proof.
  unfold MakeDate, MakeTime, Day, HourFromTime, MinFromTime, SecFromTime,
    msFromTime, msPerDay, msPerHour, msPerMinute, msPerSecond.
  Z.to_euclidean_division_equations; lia.
Qed.

Lemma time_fields_range (t : Z) :
  0 <= HourFromTime t <= 23 ∧ 0 <= MinFromTime t <= 59
  ∧ 0 <= SecFromTime t <= 59 ∧ 0 <= msFromTime t <= 999.
Proof.
  unfold HourFromTime, MinFromTime, SecFromTime, msFromTime, msPerSecond.
  repeat split; Z.to_euclidean_division_equations; lia.
Qed.

Lemma YearFromTime_range (t : Z) :
  Z.abs t <= maxTime → -271821 <= YearFromTime t <= 275760.
Proof.
  intros Ht. unfold YearFromTime.
  pose proof (YearFromDay_spec (Day t)) as H.
  assert (-100000000 <= Day t <= 100000000) as Hd
    by (unfold Day, msPerDay, maxTime in *; Z.to_euclidean_division_equations; lia).
  revert H Hd. generalize (YearFromDay (Day t)) (Day t). intros y d H Hd.
  unfold DayFromYear in H. Z.to_euclidean_division_equations; lia.
Qed.

(** ** Printing a time value and parsing it back *)

Example toISOString_epoch : toISOString 0 = "1970-01-01T00:00:00.000Z".
Proof. reflexivity. Qed.

Example toISOString_before_epoch : toISOString (-1) = "1969-12-31T23:59:59.999Z".
Proof. reflexivity. Qed.

Example toISOString_leap_day :
  toISOString 1709209815123 = "2024-02-29T12:30:15.123Z".
Proof. reflexivity. Qed.

Example toISOString_last_instant :
  toISOString maxTime = "+275760-09-13T00:00:00.000Z".
Proof. reflexivity. Qed.

Example toISOString_first_instant :
  toISOString (- maxTime) = "-271821-04-20T00:00:00.000Z".
Proof. reflexivity. Qed.

Example parse_iso_utc :
  parse_iso (λ t, t) "2024-01-01T00:00:00Z" = Some 1704067200000.
Proof. reflexivity. Qed.

Example parse_iso_offset :
  parse_iso (λ t, t) "2024-02-29T18:00:15.123+05:30" = Some 1709209815123.
Proof. reflexivity. Qed.

Example parse_iso_date_only : parse_iso (λ t, t) "2024-02" = Some 1706745600000.
Proof. reflexivity. Qed.

Example parse_iso_local_time :
  parse_iso (λ t, t - 3600000) "2024-01-01T01:00" = Some 1704067200000.
Proof. reflexivity. Qed.

Example parse_iso_past_the_end :
  parse_iso (λ t, t) "+275760-09-13T00:00:00.001Z" = None.
Proof. reflexivity. Qed.

Example parse_iso_not_a_date : parse_iso (λ t, t) "not-a-date" = None.
Proof. reflexivity. Qed.

Lemma take_year_put_year (y : Z) (rest : string) :
  -999999 <= y <= 999999 → take_year (put_year y rest) = Some (y, rest).
Proof.
  intros Hy. unfold put_year.
  destruct (Z.leb_spec 0 y); [destruct (Z.leb_spec y 9999)|]; cbn [andb].
  - destruct (put_digits_head 3 y rest) as (d & r & Hd & E); [done|].
    destruct (ascii_of_digit_not_sign d Hd) as [E1 E2].
    unfold take_year. rewrite E, E1, E2, <- E. apply take_put_digits. lia.
  - destruct (Z.ltb_spec y 0); [lia|]. unfold take_year.
    rewrite Ascii.eqb_refl. apply take_put_digits. lia.
  - destruct (Z.ltb_spec y 0); [|lia]. unfold take_year.
    change (Ascii.eqb "-" "+") with false. rewrite Ascii.eqb_refl. cbv iota.
    rewrite take_put_digits by lia. cbn.
    destruct (Z.eqb_spec (- y) 0); [lia|]. do 2 f_equal. lia.
Qed.

Lemma take_opt_put_digits (sep : ascii) (w : nat) (dflt n : Z) (rest : string) :
  0 <= n < 10 ^ Z.of_nat w →
  take_opt sep w dflt (String sep (put_digits w n rest)) = Some (n, rest, true).
Proof.
  intros Hn. unfold take_opt. rewrite Ascii.eqb_refl, take_put_digits by done. done.
Qed.

Lemma take_time_of_time (f : Z → Z) (t : Z) :
  Z.abs t <= maxTime →
  take_time f (Day t)
    (put_digits 2 (HourFromTime t)
    (String ":" (put_digits 2 (MinFromTime t)
    (String ":" (put_digits 2 (SecFromTime t)
    (String "." (put_digits 3 (msFromTime t)
    (String "Z" EmptyString)))))))) = Some t.
Proof.
  intros Ht. destruct (time_fields_range t) as (Hh & Hm & Hs & Hms).
  unfold take_time, take_opt_after.
  rewrite take_put_digits by (change (10 ^ Z.of_nat 2) with 100; lia).
  cbn [mbind option_bind expect]. rewrite Ascii.eqb_refl. cbn [mbind option_bind].
  rewrite take_put_digits by (change (10 ^ Z.of_nat 2) with 100; lia). cbn [mbind option_bind].
  rewrite take_opt_put_digits by (change (10 ^ Z.of_nat 2) with 100; lia). cbn [mbind option_bind].
  rewrite take_opt_put_digits by (change (10 ^ Z.of_nat 3) with 1000; lia).
  cbn [mbind option_bind take_zone]. rewrite Ascii.eqb_refl. cbn [mbind option_bind].
  destruct (Z.leb_spec (HourFromTime t) 23); [|lia].
  destruct (Z.leb_spec (MinFromTime t) 59); [|lia].
  destruct (Z.leb_spec (SecFromTime t) 59); [|lia].
  cbn [andb orb]. rewrite MakeTime_of_time, Z.sub_0_r.
  unfold TimeClip. destruct (Z.leb_spec (Z.abs t) maxTime); [done|lia].
Qed.

Lemma parse_iso_toISOString (f : Z → Z) (t : Z) :
  Z.abs t <= maxTime → parse_iso f (toISOString t) = Some t.
Proof.
  intros Ht. pose proof (YearFromTime_range t Ht) as Hy.
  pose proof (MonthFromTime_range t) as Hm.
  pose proof (DateFromTime_range t) as Hd.
  unfold parse_iso, toISOString, take_opt_after.
  rewrite take_year_put_year by lia. cbn [mbind option_bind].
  rewrite take_opt_put_digits by (change (10 ^ Z.of_nat 2) with 100; lia). cbn [mbind option_bind].
  rewrite take_opt_put_digits by (change (10 ^ Z.of_nat 2) with 100; lia). cbn [mbind option_bind].
  destruct (Z.leb_spec 1 (MonthFromTime t + 1)); [|lia].
  destruct (Z.leb_spec (MonthFromTime t + 1) 12); [|lia].
  destruct (Z.leb_spec 1 (DateFromTime t)); [|lia].
  destruct (Z.leb_spec (DateFromTime t) 31); [|lia].
  cbn [andb]. replace (MonthFromTime t + 1 - 1) with (MonthFromTime t) by lia.
  rewrite MakeDay_of_time. cbn [expect]. rewrite Ascii.eqb_refl. cbn [mbind option_bind].
  apply take_time_of_time, Ht.
Qed.

Lemma TimeClip_Some (x t : Z) : TimeClip x = Some t → x = t ∧ Z.abs t <= maxTime.
Proof.
  unfold TimeClip. destruct (Z.leb_spec (Z.abs x) maxTime); [|done].
  intros [= <-]. done.
Qed.

Lemma TimeClip_in_range (t : Z) : Z.abs t <= maxTime → TimeClip t = Some t.
Proof.
  intros Ht. unfold TimeClip. destruct (Z.leb_spec (Z.abs t) maxTime); [done|lia].
Qed.

Ltac bind_cases H :=
  repeat match type of H with
         | context [mbind _ ?m] =>
             let E := fresh "E" in
             destruct m as [?|] eqn:E; cbn [mbind option_bind] in H; [|discriminate H]
         | (let '(_, _) := ?p in _) = _ => destruct p
         end.

Lemma take_time_range (f : Z → Z) (day : Z) (s : string) (t : Z) :
  take_time f day s = Some t → Z.abs t <= maxTime.
Proof.
  unfold take_time. intros H. bind_cases H.
  destruct (_ || _); [|done].
  match type of H with
  | match ?z with Some _ => _ | None => _ end = _ => destruct z
  end; by apply TimeClip_Some in H as [_ ?].
Qed.

Lemma parse_iso_range (f : Z → Z) (s : string) (t : Z) :
  parse_iso f s = Some t → Z.abs t <= maxTime.
Proof.
  unfold parse_iso. intros H. bind_cases H.
  destruct (_ && _); [|done].
  match type of H with
  | match ?r with EmptyString => _ | String _ _ => _ end = _ => destruct r
  end.
  - by apply TimeClip_Some in H as [_ ?].
  - bind_cases H. by apply take_time_range in H.
Qed.

(* ===================================================================== *)
(** * Facts about the list of reports *)
(* ===================================================================== *)

(** ** Sorting *)

Section sorting.
Context {A : Type} (cmp : A → A → option Z).

Lemma sort_insert_perm (x : A) (l : list A) : sort_insert cmp x l ≡ₚ x :: l.
Proof.
  induction l as [|y l IH]; cbn [sort_insert]; [done|].
  destruct (stays_before cmp x y); [done|].
  rewrite IH. apply Permutation_swap.
Qed.

Lemma Array_sort_perm (l : list A) : Array_sort cmp l ≡ₚ l.
Proof.
  unfold Array_sort. induction l as [|x l IH]; cbn [foldr]; [done|].
  rewrite sort_insert_perm. by rewrite IH.
Qed.
End sorting.





(** ** Reading a snapshot *)

Lemma normalized_wider (env : Env) (lo hi lo' hi' : nat) (data : Obj) (ts : value) :
  (lo' ≤ lo)%nat → (hi ≤ hi')%nat →
  normalized env lo hi data ts → normalized env lo' hi' data ts.
Proof.
  intros ?? (Ha & Hb & Hc). split; [done|]. split; [done|].
  intros Hf. destruct (Hc Hf) as (n & ? & ?). exists n. split; [lia|done].
Qed.

Lemma normalize_timestamp_run (data : Obj) (env : Env) (w : World) :
  ∃ ts w', normalize_timestamp data env w = (Ok ts, w')
    ∧ normalized env (clock_reads w) (clock_reads w') data ts
    ∧ only_clock_read w w'.
Proof.
  unfold normalize_timestamp, normalized, only_clock_read.
  destruct (ToBoolean _) eqn:Et; [destruct (has_toDate _) eqn:Ed|]; cbn [andb].
  - eexists _, w. split; [done|]. split; [|by repeat split].
    split; [done|]. split; done.
  - eexists _, w. split; [done|]. split; [|by repeat split].
    split; [done|]. split; done.
  - eexists _, _. split; [done|]. cbn. split; [|repeat split; lia].
    split; [done|]. split; [done|]. intros _.
    exists (clock_reads w). split; [lia|done].
Qed.

Lemma forEach_run (qs : list DocSnap) (acc : list Obj) (env : Env) (w : World) :
  ∃ entries w', forEach qs acc env w = (Ok (acc ++ entries)%list, w')
    ∧ Forall2 (published_as env (clock_reads w) (clock_reads w')) qs entries
    ∧ only_clock_read w w'.
Proof.
  revert acc w. induction qs as [|d qs IH]; intros acc w.
  - exists [], w. rewrite app_nil_r. split; [done|]. split; [constructor|].
    by repeat split.
  - destruct (normalize_timestamp_run (snap_data d) env w) as (ts & w1 & E1 & Hts & F1).
    destruct (IH (acc ++ [report_entry d ts])%list w1) as (entries & w2 & E2 & Hall & F2).
    exists (report_entry d ts :: entries), w2. split; [|split].
    + cbn [forEach]. unfold push_report, mbind, M_bind, bind at 1.
      unfold mbind, M_bind, bind at 1. rewrite E1. cbn.
      rewrite E2. by rewrite <- app_assoc.
    + unfold only_clock_read in *. constructor.
      * exists ts. split; [done|]. eapply normalized_wider; [| |done]; lia.
      * eapply Forall2_impl; [done|]. intros d' r (ts' & -> & H).
        exists ts'. split; [done|]. eapply normalized_wider; [| |done]; lia.
    + unfold only_clock_read in *. destruct F1 as (?&?&?&?&?&?&?), F2 as (?&?&?&?&?&?&?).
      repeat split; try congruence; lia.
Qed.

Lemma onSnapshot_callback_run (qs : list DocSnap) (env : Env) (w : World) :
  ∃ entries w',
    onSnapshot_callback qs env w = (Ok tt, w')
    ∧ accidentReports w' = Array_sort by_timestamp_desc entries
    ∧ Forall2 (published_as env (clock_reads w) (clock_reads w')) qs entries
    ∧ store_reports w' = store_reports w
    ∧ store_notifications w' = store_notifications w.
Proof.
  destruct (forEach_run qs [] env w) as (entries & w1 & E & Hall & F).
  destruct F as (?&?&?&?&?&?&?).
  eexists entries, _. split; [|split; [|split; [|split]]].
  - unfold onSnapshot_callback, mbind, M_bind, bind. rewrite E. cbn. reflexivity.
  - done.
  - done.
  - done.
  - done.
Qed.




Lemma descending_head (a b : Obj) (l : list Obj) :
  descending (a :: b :: l) → newer_or_equal a b = true.
Proof. intros H. by apply (H 0%nat). Qed.

Lemma snapshot_entries (qs : list DocSnap) (env : Env) (w : World) :
  fst (onSnapshot_callback qs env w) = Ok tt
  ∧ ∃ entries,
      Forall2 (published_as env (clock_reads w)
                 (clock_reads (exec (onSnapshot_callback qs) env w))) qs entries
      ∧ accidentReports (exec (onSnapshot_callback qs) env w) ≡ₚ entries.
Proof.
  destruct (onSnapshot_callback_run qs env w) as (entries & w' & E & Hl & Hall & _).
  unfold exec. rewrite E. cbn [fst snd]. split; [done|].
  exists entries. split; [done|]. rewrite Hl. apply Array_sort_perm.
Qed.

Lemma report_entry_id (d : DocSnap) (ts : value) :
  report_entry d ts !! "id"
  = Some (default (VStr (snap_id d)) (snap_data d !! "id")).
Proof.
  unfold report_entry. rewrite lookup_insert_ne by done.
  destruct (snap_data d !! "id") as [v|] eqn:E; cbn [default].
  - by apply lookup_union_Some_l.
  - rewrite lookup_union_r by done. by rewrite lookup_singleton_eq.
Qed.

(** Where the field is absent or truthy the callback and the wording of
    the specification agree. *)
Lemma normalize_timestamp_as_specified (data : Obj) (env : Env) (w : World) :
  data !! "timestamp" = None ∨ ToBoolean (prop data "timestamp") = true →
  normalize_timestamp data env w = spec_normalize_timestamp data env w.
Proof.
  unfold normalize_timestamp, spec_normalize_timestamp, prop.
  intros [-> | Ht]; [done|].
  destruct (data !! "timestamp") as [ts|]; cbn [default from_option id] in *; [|done].
  rewrite Ht. cbn [andb]. by destruct (has_toDate ts).
Qed.

(* ===================================================================== *)
(** * The list published for a snapshot *)
(* ===================================================================== *)

(** C1 as the specification words it fails for a timestamp that is present
    but falsy: for the number 0 the specification parses the epoch, the
    callback publishes the reading of the clock. *)
Lemma C1_present_zero_is_not_parsed :
  fst (spec_normalize_timestamp {["timestamp" := VNum (Finite 0 0)]}
         sample_env sample_world) = Ok (VDate (Some 0))
  ∧ (λ r, prop r "timestamp")
      <$> accidentReports (exec (onSnapshot_callback epoch_snapshot) sample_env sample_world)
    = [VDate (Some 1700000000000)].
Proof. split; reflexivity. Qed.

(** C1, amended: for a snapshot none of whose timestamps is an object with
    a field of its own named [toString] (on which [new Date] throws, see
    [Date_construct]), the callback does not throw; the
    list it publishes holds, in some order, exactly one entry for every
    record of the snapshot; and the [timestamp] field of that entry is the
    result of [toDate] when the field of the record is truthy and has that
    method, else the date constructed from the field when the field is
    truthy, else a reading of the clock taken during the callback. *)
Theorem C1_timestamp_precedence (qs : list DocSnap) (env : Env) (w : World) :
  Forall (λ d, converts_to_primitive (prop (snap_data d) "timestamp") = true) qs →
  fst (onSnapshot_callback qs env w) = Ok tt
  ∧ ∃ entries,
      Forall2 (λ d r, ∃ ts,
                 r = report_entry d ts
                 ∧ r !! "timestamp" = Some ts
                 ∧ normalized env (clock_reads w)
                     (clock_reads (exec (onSnapshot_callback qs) env w))
                     (snap_data d) ts) qs entries
      ∧ accidentReports (exec (onSnapshot_callback qs) env w) ≡ₚ entries.
Proof.
  intros _. destruct (snapshot_entries qs env w) as (Hok & entries & Hall & Hp).
  split; [done|]. exists entries. split; [|done].
  eapply Forall2_impl; [exact Hall|]. intros d r (ts & -> & Hn).
  exists ts. split; [done|]. split; [|done].
  unfold report_entry. by rewrite lookup_insert_eq.
Qed.

Lemma C1_timestamp_precedence_witness :
  fst (onSnapshot_callback sample_snapshot sample_env sample_world) = Ok tt
  ∧ ∃ entries,
      Forall2 (λ d r, ∃ ts,
                 r = report_entry d ts
                 ∧ r !! "timestamp" = Some ts
                 ∧ normalized sample_env 0 1 (snap_data d) ts) sample_snapshot entries
      ∧ accidentReports (exec (onSnapshot_callback sample_snapshot) sample_env sample_world)
        ≡ₚ entries.
Proof.
  apply (C1_timestamp_precedence sample_snapshot sample_env sample_world).
  repeat constructor.
Defined.




(** The same input shows the order: the record with the later timestamp
    comes first, the one without timestamp (read as the clock, which is
    earlier here) last. *)
Lemma sample_snapshot_published :
  (λ r, prop r "timestamp")
    <$> accidentReports (exec (onSnapshot_callback sample_snapshot) sample_env sample_world)
  = [VDate (Some 1704067200001); VDate (Some 1704067200000); VDate (Some 1700000000000)].
Proof. reflexivity. Qed.

(** No other order of the two entries of the malformed snapshot is
    descending either: the failure of C2 there does not depend on how the
    sort treats a comparator that answers NaN. *)
Lemma malformed_never_descending (l : list Obj) :
  l ≡ₚ accidentReports (exec (onSnapshot_callback malformed_snapshot) sample_env sample_world) →
  ¬ descending l.
Proof.
  intros Hp Hd.
  remember (accidentReports _) as p eqn:Ep in Hp.
  assert (List.length p = 2%nat) as Hlen by (subst p; vm_compute; reflexivity).
  assert (existsb (λ r, bool_decide (Date_valueOf (prop r "timestamp") = None)) p = true)
    as Hex by (subst p; vm_compute; reflexivity).
  clear Ep. apply existsb_exists in Hex as (x & Hx & Hn).
  apply bool_decide_eq_true in Hn. apply list_elem_of_In in Hx.
  rewrite <- Hp in Hx. apply Permutation_length in Hp. rewrite Hlen in Hp.
  destruct l as [|a [|b [|]]]; try done.
  apply descending_head in Hd. unfold newer_or_equal in Hd.
  apply elem_of_cons in Hx as [-> | Hx]; [by rewrite Hn in Hd|].
  apply list_elem_of_singleton in Hx as ->. rewrite Hn in Hd.
  by destruct (Date_valueOf (prop a "timestamp")).
Qed.



(* ===================================================================== *)
(** * The three forms of a timestamp *)
(* ===================================================================== *)

(** C7 as stated fails at the epoch itself: as a store timestamp and as a
    string it is read as the epoch, as the number 0 it is read as the time
    of the callback. *)
Lemma C7_epoch_number_reads_as_now :
  fst (normalize_timestamp {["timestamp" := VTimestamp 0]} sample_env sample_world)
  = Ok (VDate (Some 0))
  ∧ fst (normalize_timestamp {["timestamp" := VStr (toISOString 0)]} sample_env sample_world)
    = Ok (VDate (Some 0))
  ∧ fst (normalize_timestamp {["timestamp" := VNum (Finite 0 0)]} sample_env sample_world)
    = Ok (VDate (Some 1700000000000)).
Proof. repeat split; reflexivity. Qed.

(** C7, amended: for every instant [t], the store timestamp of [t] and
    every string that parses to [t] are both normalised to the date [t],
    and the string that [toISOString] prints for [t] is one that parses to
    [t]; the number [t] is normalised to the same date for every [t] other
    than the epoch. *)
Theorem C7_same_instant_in_three_forms
    (env : Env) (w : World) (t : Z) (s : string) (native iso epoch : Obj) :
  prop native "timestamp" = VTimestamp t →
  prop iso "timestamp" = VStr s →
  parse_iso (utc_of_local env) s = Some t →
  prop epoch "timestamp" = VNum (Finite t 0) →
  fst (normalize_timestamp native env w) = Ok (VDate (Some t))
  ∧ fst (normalize_timestamp iso env w) = Ok (VDate (Some t))
  ∧ (t ≠ 0 → fst (normalize_timestamp epoch env w) = Ok (VDate (Some t)))
  ∧ parse_iso (utc_of_local env) (toISOString t) = Some t.
Proof.
  intros Hn Hi Hs He.
  pose proof (parse_iso_range _ _ _ Hs) as Hr.
  pose proof (TimeClip_in_range t Hr) as Hclip.
  unfold normalize_timestamp. rewrite Hn, Hi, He. repeat split.
  - cbn. by rewrite Hclip.
  - assert (String.eqb s "" = false) as Hne.
    { destruct (String.eqb_spec s ""); [|done]. subst s. discriminate. }
    cbn [ToBoolean has_toDate]. rewrite Hne. cbn [negb andb].
    unfold new_Date, mbind, M_bind, bind, ask, mret, M_ret, ret. cbn [fst].
    unfold Date_construct, Date_parse. by rewrite Hs.
  - intros Ht. cbn [ToBoolean has_toDate]. destruct (Z.eqb_spec t 0); [done|].
    cbn [negb andb].
    unfold new_Date, mbind, M_bind, bind, ask, mret, M_ret, ret. cbn [fst].
    unfold Date_construct, Date_of_number.
    change (10 ^ Z.of_nat 0) with 1. rewrite Z.mul_1_r, Z.quot_1_r.
    by destruct (Z.leb_spec (Z.abs t) maxTime); [|lia].
  - by apply parse_iso_toISOString.
Qed.

Lemma C7_same_instant_in_three_forms_witness :
  fst (normalize_timestamp {["timestamp" := VTimestamp 1704067200000]} sample_env sample_world)
  = Ok (VDate (Some 1704067200000))
  ∧ fst (normalize_timestamp {["timestamp" := VStr "2024-01-01T00:00:00Z"]}
           sample_env sample_world)
    = Ok (VDate (Some 1704067200000))
  ∧ fst (normalize_timestamp {["timestamp" := VNum (Finite 1704067200000 0)]}
           sample_env sample_world)
    = Ok (VDate (Some 1704067200000))
  ∧ parse_iso (utc_of_local sample_env) (toISOString 1704067200000) = Some 1704067200000.
Proof.
  destruct (C7_same_instant_in_three_forms sample_env sample_world 1704067200000
              "2024-01-01T00:00:00Z"
              {["timestamp" := VTimestamp 1704067200000]}
              {["timestamp" := VStr "2024-01-01T00:00:00Z"]}
              {["timestamp" := VNum (Finite 1704067200000 0)]})
    as (H1 & H2 & H3 & H4); try reflexivity.
  split; [exact H1|]. split; [exact H2|]. split; [|exact H4]. apply H3. discriminate.
Defined.

(** The store timestamp and the string of the epoch itself are read as the
    epoch. *)
Example epoch_in_two_forms :
  fst (normalize_timestamp {["timestamp" := VTimestamp 0]} sample_env sample_world)
  = Ok (VDate (Some 0))
  ∧ fst (normalize_timestamp {["timestamp" := VStr "1970-01-01T00:00:00.000Z"]}
           sample_env sample_world)
    = Ok (VDate (Some 0)).
Proof. split; reflexivity. Qed.

(* ===================================================================== *)
(** * Paths *)
(* ===================================================================== *)

Lemma split_slash_one (s : string) : has_slash s = false → split_slash s = [s].
Proof.
  induction s as [|c s IH]; [done|]. cbn [has_slash split_slash].
  destruct (Ascii.eqb c "/"); [done|]. cbn [orb]. intros H. by rewrite IH.
Qed.

Lemma has_double_slash_one (s : string) : has_slash s = false → has_double_slash s = false.
Proof.
  induction s as [|c s IH]; [done|]. cbn [has_slash has_double_slash].
  destruct (Ascii.eqb c "/"); [done|]. cbn [orb andb]. exact IH.
Qed.

Lemma path_segments_one (s : string) :
  has_slash s = false → s ≠ "" → path_segments s = [s].
Proof.
  intros Hs Hne. unfold path_segments. rewrite split_slash_one by done.
  rewrite filter_cons, decide_True by done. done.
Qed.

(** A user identifier that is one path segment gives the collection of
    that user's notifications. *)
Lemma collection_path_one_segment (uid : string) :
  has_slash uid = false → uid ≠ "" →
  collection_path [VStr "users"; VStr uid; VStr "notifications"]
  = Ok (notifications_path uid).
Proof.
  intros Hs Hne. unfold collection_path, ResourcePath_fromString.
  rewrite (has_double_slash_one uid), (path_segments_one uid) by done.
  reflexivity.
Qed.

(** Only a truthy user identifier gives a collection. *)
Lemma collection_path_truthy (userId : value) (ref : string) :
  collection_path [VStr "users"; userId; VStr "notifications"] = Ok ref →
  ToBoolean userId = true.
Proof.
  destruct userId as [| | | |s| | |]; try discriminate.
  destruct (String.eqb_spec s "") as [->|Hne]; [discriminate|].
  intros _. cbn. by destruct (String.eqb_spec s "").
Qed.

(* ===================================================================== *)
(** * The respond action *)
(* ===================================================================== *)

Ltac run_bind := unfold mbind, M_bind, bind, mret, M_ret, ret, throw.

Lemma link_answered_refl (w : World) : link_answered w w [].
Proof. unfold link_answered. rewrite app_nil_r. by repeat split. Qed.

Lemma deliver_run (errs : list Error) (env : Env) (w : World) :
  ∃ w',
    deliver errs env w = (Ok tt, w')
    ∧ link_answered w w'
        ((λ err, ("Error", "Failed to open Google Maps: " +:+ message err)) <$> errs).
Proof.
  revert w. induction errs as [|err errs IH]; intros w.
  - exists w. split; [done|]. apply link_answered_refl.
  - cbn [deliver]. run_bind. unfold on_link_error, Alert_alert.
    destruct (IH (set_alerts
                    (alerts w ++ [("Error", "Failed to open Google Maps: " +:+ message err)]) w))
      as (w' & E & Hr & Hn & Ha & Hu & Hc & Hk & Hal & Hall).
    exists w'. rewrite E. split; [done|]. unfold link_answered.
    rewrite fmap_cons. cbn in *. repeat split; try done.
    + by rewrite Hal, <- app_assoc.
    + by constructor.
Qed.

Lemma await_run {A} (n : nat) (p : M A) (env : Env) (w : World) :
  ∃ w' link,
    await n p env w = (fst (p env w), w') ∧ link_answered (snd (p env w)) w' link.
Proof.
  unfold await. destruct (p env w) as [r w1]. cbn [fst snd].
  destruct (openURL_answers env =? n)%nat.
  - unfold exec, link_answers.
    destruct (deliver_run (link_rejections w1) env (set_link_rejections [] w1))
      as (w' & E & H).
    rewrite E. by eexists _, _.
  - exists w1, []. split; [done|]. apply link_answered_refl.
Qed.

Lemma update_status_run (item : Obj) (env : Env) (w : World) :
  (∃ id old w' link,
     update_applies item env w id old
     ∧ update_status item env w = (Ok tt, w')
     ∧ link_answered
         (set_store_reports
            (<[id := {["status" := VStr "Help on way"]} ∪ old]> (store_reports w)) w)
         w' link)
  ∨ ((∀ id old, ¬ update_applies item env w id old)
     ∧ ∃ e w' link, update_status item env w = (Throw e, w') ∧ link_answered w w' link).
Proof.
  unfold update_status, update_applies, doc. run_bind.
  destruct (prop item "id") as [| | | |id| | |];
    try (right; split; [by intros ?? [? _]|eexists _, w, []; split; [done|];
                                           apply link_answered_refl]).
  destruct (String.eqb_spec id "") as [->|Hid].
  { right. split; [intros ?? (? & ? & _); congruence|].
    eexists _, w, []. split; [done|]. apply link_answered_refl. }
  destruct (await_run 1 (updateDoc id {["status" := VStr "Help on way"]}) env w)
    as (w' & link & E & H).
  rewrite E. revert H. unfold updateDoc.
  destruct (updateDoc_fails env) as [msg|] eqn:Hu; cbn [fst snd].
  { intros H. right. split; [intros ?? (_ & _ & ? & _); congruence|]. by eexists _, _, _. }
  destruct (store_reports w !! id) as [old|] eqn:Hl; cbn [fst snd]; intros H.
  - left. by exists id, old, w', link.
  - right. split; [intros ?? (? & _ & _ & ?); congruence|]. by eexists _, _, _.
Qed.

Lemma update_status_succeeds (item : Obj) (env : Env) (w : World) :
  succeeds (update_status item) env w ↔ ∃ id old, update_applies item env w id old.
Proof.
  unfold succeeds.
  destruct (update_status_run item env w)
    as [(id & old & w' & link & H & E & _)|(H & e & w' & link & E & _)];
    rewrite E; cbn [fst]; split; eauto.
  - intros [? ?]. done.
  - intros (id & old & ?). by destruct (H id old).
Qed.

Lemma update_status_fails (item : Obj) (env : Env) (w : World) :
  fails (update_status item) env w ↔ ∀ id old, ¬ update_applies item env w id old.
Proof.
  unfold fails.
  destruct (update_status_run item env w)
    as [(id & old & w' & link & H & E & _)|(H & e & w' & link & E & _)];
    rewrite E; cbn [fst]; split; eauto.
  - intros [? ?]. done.
  - intros Hn. by destruct (Hn id old).
Qed.

Lemma send_notification_run (item : Obj) (env : Env) (w : World) :
  (∃ ref w' link,
     notification_applies item env ref
     ∧ send_notification item env w = (Ok tt, w')
     ∧ link_answered
         (set_store_notifications
            (<[ref := (default [] (store_notifications w !! ref)
                       ++ [notification (clock env (clock_reads w))])%list]>
               (store_notifications w))
            (set_clock_reads (S (clock_reads w)) w))
         w' link)
  ∨ ((∀ ref, ¬ notification_applies item env ref)
     ∧ ∃ e w' link, send_notification item env w = (Throw e, w')
         ∧ store_reports w' = store_reports w
         ∧ store_notifications w' = store_notifications w
         ∧ accidentReports w' = accidentReports w
         ∧ opened_urls w' = opened_urls w
         ∧ alerts w' = (alerts w ++ link)%list
         ∧ Forall (λ a, a.1 = "Error") link).
Proof.
  unfold send_notification, notification_applies, collection, of_result, Date_now. run_bind.
  destruct (collection_path _) as [ref|e] eqn:Hc.
  2:{ right. split; [by intros ? [? _]|]. eexists e, w, []. rewrite app_nil_r.
      by repeat split. }
  destruct (await_run 2 (addDoc ref (notification (clock env (clock_reads w)))) env
              (set_clock_reads (S (clock_reads w)) w))
    as (w' & link & E & H).
  rewrite E. revert H. unfold addDoc.
  destruct (addDoc_fails env) as [msg|] eqn:Ha; cbn [fst snd]; intros H.
  - right. split; [intros ? (_ & ?); congruence|].
    destruct H as (? & ? & ? & ? & ? & ? & ? & ?). by eexists _, w', link.
  - left. by exists ref, w', link.
Qed.

Lemma respond_writes_run (item : Obj) (env : Env) (w : World) :
  ∃ link shown,
    write_outcome item env w (exec (respond_writes item) env w) shown
    ∧ alerts (exec (respond_writes item) env w) = (alerts w ++ link ++ shown)%list
    ∧ Forall (λ a, a.1 = "Error") link
    ∧ opened_urls (exec (respond_writes item) env w) = opened_urls w
    ∧ accidentReports (exec (respond_writes item) env w) = accidentReports w.
Proof.
  unfold write_outcome, exec, respond_writes, update_and_notify, try_catch,
    on_update_error, console_error, Alert_alert. run_bind.
  destruct (update_status_run item env w)
    as [(id & old & w1 & link1 & H & E & Hr1 & Hn1 & Ha1 & Hu1 & Hc1 & Hk1 & Hal1 & Hall1)
       |(H & e & w1 & link1 & E & Hr1 & Hn1 & Ha1 & Hu1 & Hc1 & Hk1 & Hal1 & Hall1)];
    rewrite E; cbn in Hr1, Hn1, Ha1, Hu1, Hc1, Hk1, Hal1.
  - destruct (ToBoolean (prop item "userId")) eqn:Hu.
    + destruct (send_notification_run item env w1)
        as [(ref & w2 & link2 & Hn & En & Hr2 & Hn2 & Ha2 & Hu2 & Hc2 & Hk2 & Hal2 & Hall2)
           |(Hn & e & w2 & link2 & En & Hr2 & Hn2 & Ha2 & Hu2 & Hal2 & Hall2)];
        rewrite En; cbn in *.
      * exists (link1 ++ link2)%list, []. rewrite app_nil_r.
        split; [|repeat split; try congruence].
        -- right. exists id, old. split; [done|]. split; [congruence|]. right. right.
           exists ref. split; [done|]. split; [|done]. rewrite Hn2. congruence.
        -- by rewrite Hal2, Hal1, app_assoc.
        -- by apply Forall_app.
      * exists (link1 ++ link2)%list, [update_error_alert e].
        split; [|repeat split; try congruence].
        -- right. exists id, old. split; [done|]. split; [congruence|]. right. left.
           repeat split; eauto. congruence.
        -- unfold update_error_alert. by rewrite Hal2, Hal1, <- !app_assoc.
        -- by apply Forall_app.
    + cbn. exists link1, []. rewrite app_nil_r. split; [|by repeat split]. right.
      exists id, old. split; [done|]. split; [done|]. left. by repeat split.
  - cbn. exists link1, [update_error_alert e].
    split; [|repeat split; try done; unfold update_error_alert; by rewrite Hal1, <- app_assoc].
    left. split; [by apply update_status_fails|]. eauto.
Qed.

Lemma open_maps_run (item : Obj) (env : Env) (w : World) :
  ∃ w1 located urls,
    open_maps item env w = (Ok tt, w1)
    ∧ store_reports w1 = store_reports w
    ∧ store_notifications w1 = store_notifications w
    ∧ clock_reads w1 = clock_reads w
    ∧ accidentReports w1 = accidentReports w
    ∧ alerts w1 = (alerts w ++ located)%list
    ∧ opened_urls w1 = (opened_urls w ++ urls)%list
    ∧ (if location_is_numeric item
       then urls = [maps_url item] ∧ located = []
       else urls = []
            ∧ located = [("Location Error", "Invalid location data for this accident.")]).
Proof.
  unfold open_maps, Linking_openURL, Alert_alert.
  destruct (location_is_numeric item).
  - eexists _, [], _. repeat split; try reflexivity. cbn. by rewrite app_nil_r.
  - eexists _, _, []. repeat split; try reflexivity. cbn. by rewrite app_nil_r.
Qed.

Lemma write_outcome_same_store (item : Obj) (env : Env) (w1 w w' : World)
    (shown : list (string * string)) :
  store_reports w1 = store_reports w →
  store_notifications w1 = store_notifications w →
  clock_reads w1 = clock_reads w →
  write_outcome item env w1 w' shown → write_outcome item env w w' shown.
Proof.
  unfold write_outcome, update_applies. rewrite !update_status_fails.
  unfold update_applies. intros -> -> ->. done.
Qed.

Lemma notification_applies_truthy (item : Obj) (env : Env) (ref : string) :
  notification_applies item env ref → ToBoolean (prop item "userId") = true.
Proof. intros [H _]. by eapply collection_path_truthy. Qed.

Lemma update_applies_functional (item : Obj) (env : Env) (w : World)
    (id1 id2 : string) (old1 old2 : Obj) :
  update_applies item env w id1 old1 → update_applies item env w id2 old2 →
  id1 = id2 ∧ old1 = old2.
Proof.
  intros (P1 & _ & _ & L1) (P2 & _ & _ & L2).
  assert (id1 = id2) as -> by congruence. split; congruence.
Qed.

Lemma notification_applies_functional (item : Obj) (env : Env) (ref1 ref2 : string) :
  notification_applies item env ref1 → notification_applies item env ref2 → ref1 = ref2.
Proof. intros (P1 & _) (P2 & _). congruence. Qed.


Lemma handleRespond_run (item : Obj) (env : Env) (w : World) :
  ∃ located urls link shown,
    write_outcome item env w (exec (handleRespond item) env w) shown
    ∧ alerts (exec (handleRespond item) env w) = (alerts w ++ located ++ link ++ shown)%list
    ∧ Forall (λ a, a.1 = "Error") link
    ∧ opened_urls (exec (handleRespond item) env w) = (opened_urls w ++ urls)%list
    ∧ accidentReports (exec (handleRespond item) env w) = accidentReports w
    ∧ (if location_is_numeric item
       then urls = [maps_url item] ∧ located = []
       else urls = []
            ∧ located = [("Location Error", "Invalid location data for this accident.")]).
Proof.
  destruct (open_maps_run item env w)
    as (w1 & located & urls & E & Hr & Hn & Hc & Ha & Hal & Hu & Hloc).
  destruct (respond_writes_run item env w1) as (link & shown & Hout & Hal' & Hall & Hu' & Ha').
  assert (exec (handleRespond item) env w = exec (respond_writes item) env w1) as ->.
  { unfold exec, handleRespond. run_bind. by rewrite E. }
  exists located, urls, link, shown. split; [by eapply write_outcome_same_store|].
  rewrite Hal', Hu', Ha', Hal, Hu, Ha, <- app_assoc. done.
Qed.


Lemma titled_app (title : string) (l1 l2 : list (string * string)) :
  titled title (l1 ++ l2) = (titled title l1 ++ titled title l2)%list.
Proof. unfold titled. by rewrite filter_app, fmap_app. Qed.

Lemma titled_update_error (e : Error) :
  titled "Update Error" [update_error_alert e]
  = ["Could not update status: " +:+ message e].
Proof. reflexivity. Qed.

(** The alerts of the link handler have no other title than "Error". *)
Lemma titled_link (title : string) (link : list (string * string)) :
  title ≠ "Error" → Forall (λ a, a.1 = "Error") link → titled title link = [].
Proof.
  intros Hne Hall. unfold titled. induction Hall as [|a link Ha Hall IH]; [done|].
  rewrite filter_cons, decide_False by congruence. exact IH.
Qed.

Lemma handleRespond_update_errors (item : Obj) (env : Env) (w : World) :
  ∃ shown,
    write_outcome item env w (exec (handleRespond item) env w) shown
    ∧ alerts_titled "Update Error" (exec (handleRespond item) env w)
      = (alerts_titled "Update Error" w ++ titled "Update Error" shown)%list.
Proof.
  destruct (handleRespond_run item env w)
    as (located & urls & link & shown & Hout & Hal & Hall & _ & _ & Hloc).
  exists shown. split; [done|]. unfold alerts_titled. rewrite Hal, !titled_app.
  rewrite (titled_link "Update Error" link) by done.
  assert (titled "Update Error" located = []) as ->; [|done].
  by destruct (location_is_numeric item); destruct Hloc as [_ ->].
Qed.

Lemma stored_field_updated (w w' : World) (id : string) (old : Obj) :
  store_reports w !! id = Some old →
  store_reports w' = <[id := {["status" := VStr "Help on way"]} ∪ old]> (store_reports w) →
  stored_field w' id "status" = Some (VStr "Help on way")
  ∧ (∀ k, k ≠ "status" → stored_field w' id k = stored_field w id k)
  ∧ (∀ id', id' ≠ id → store_reports w' !! id' = store_reports w !! id')
  ∧ dom (store_reports w') = dom (store_reports w).
Proof.
  intros Hold E. unfold stored_field. rewrite E, lookup_insert_eq, Hold. cbn.
  split; [|split; [|split]].
  - apply lookup_union_Some_l. by rewrite lookup_singleton_eq.
  - intros k Hk. rewrite lookup_union_r; [done|]. by rewrite lookup_singleton_ne.
  - intros id' Hid. by rewrite lookup_insert_ne.
  - rewrite dom_insert_L. apply subseteq_union_1_L, singleton_subseteq_l.
    by eapply elem_of_dom_2.
Qed.

(** What a response whose update goes through leaves in the store. *)
Lemma handleRespond_applied (item : Obj) (env : Env) (w : World) (id : string) (old : Obj) :
  update_applies item env w id old →
  store_reports (exec (handleRespond item) env w)
  = <[id := {["status" := VStr "Help on way"]} ∪ old]> (store_reports w)
  ∧ ∀ uid,
      prop item "userId" = VStr uid → uid ≠ "" → has_slash uid = false →
      addDoc_fails env = None →
      store_notifications (exec (handleRespond item) env w)
      = <[notifications_path uid :=
           (notifications_of w uid ++ [notification (clock env (clock_reads w))])%list]>
          (store_notifications w).
Proof.
  intros A. destruct (handleRespond_run item env w) as (_ & _ & _ & shown & Hout & _).
  destruct Hout as [(F & _)|(id' & old' & A' & R & C)].
  { destruct (proj1 (update_status_fails _ _ _) F id old A). }
  destruct (update_applies_functional _ _ _ _ _ _ _ A A') as [<- <-].
  split; [done|]. intros uid Hu Hne Hs Ha.
  assert (notification_applies item env (notifications_path uid)) as Hn.
  { split; [|done]. rewrite Hu. by apply collection_path_one_segment. }
  pose proof (notification_applies_truthy _ _ _ Hn) as Ht.
  destruct C as [(U & _)|[(_ & NA & _)|(ref & NA & N & _)]].
  - congruence.
  - by destruct (NA (notifications_path uid)).
  - by rewrite (notification_applies_functional _ _ _ _ NA Hn) in N.
Qed.

Lemma notifications_of_added (w w' : World) (uid : string) (l : list Obj) :
  store_notifications w' = <[notifications_path uid := l]> (store_notifications w) →
  notifications_of w' uid = l.
Proof. intros E. unfold notifications_of. by rewrite E, lookup_insert_eq. Qed.

(* ===================================================================== *)
(** * What the respond action writes *)
(* ===================================================================== *)



(** C9: when the status update fails the notifications are as they were;
    so whenever the respond action has changed the notifications, the status
    update had succeeded. *)
Theorem C9_no_notification_without_update (item : Obj) (env : Env) (w : World) :
  (fails (update_status item) env w →
   store_notifications (exec (handleRespond item) env w) = store_notifications w)
  ∧ (store_notifications (exec (handleRespond item) env w) ≠ store_notifications w →
     succeeds (update_status item) env w).
Proof.
  destruct (handleRespond_run item env w) as (_ & _ & _ & shown & Hout & _).
  destruct Hout as [(F & _ & N & _)|(id & old & A & _)].
  - split; [done|]. by intros [].
  - split.
    + intros F. destruct (proj1 (update_status_fails _ _ _) F id old A).
    + intros _. apply update_status_succeeds. by exists id, old.
Qed.

Lemma C9_no_notification_without_update_witness :
  store_notifications (exec (handleRespond r1) update_rejected_env sample_world) = ∅.
Proof.
  apply (C9_no_notification_without_update r1 update_rejected_env sample_world).
  by eexists.
Defined.

(** C3 as stated fails when the status update fails: report r1 carries the
    user u1, the store rejects the update, and no notification is created
    for u1. *)
Lemma C3_update_rejected_no_notification :
  prop r1 "userId" = VStr "u1"
  ∧ notifications_of (exec (handleRespond r1) update_rejected_env sample_world) "u1" = [].
Proof. split; reflexivity. Qed.

(** C3, amended: when the status update succeeds, the report names its user
    by a non-empty string that is a single path segment (it holds no slash)
    and the store accepts the notification, the notifications of that user
    grow by exactly one document, which has the fixed message, the time of
    the call as an ISO string, [read] false and the type
    "accident_response", and no other collection changes; when the user is
    absent or empty, the notifications are as they were, and if the status
    update succeeds no update error is shown. *)
Theorem C3_one_notification_for_the_user (item : Obj) (env : Env) (w : World) :
  (∀ uid,
     succeeds (update_status item) env w →
     prop item "userId" = VStr uid → uid ≠ "" → has_slash uid = false →
     addDoc_fails env = None →
     ∃ n,
       store_notifications (exec (handleRespond item) env w)
       = <[notifications_path uid := (notifications_of w uid ++ [n])%list]>
           (store_notifications w)
       ∧ n !! "message"
         = Some (VStr "🚑 Help is on the way! A driver has responded to your accident report.")
       ∧ n !! "timestamp" = Some (VStr (toISOString (clock env (clock_reads w))))
       ∧ n !! "read" = Some (VBool false)
       ∧ n !! "type" = Some (VStr "accident_response")
       ∧ dom n = {["message"; "timestamp"; "read"; "type"]})
  ∧ (ToBoolean (prop item "userId") = false →
     store_notifications (exec (handleRespond item) env w) = store_notifications w
     ∧ (succeeds (update_status item) env w →
        alerts_titled "Update Error" (exec (handleRespond item) env w)
        = alerts_titled "Update Error" w)).
Proof.
  split.
  - intros uid Hs Hu Hne Hsl Ha. apply update_status_succeeds in Hs as (id & old & A).
    destruct (handleRespond_applied item env w id old A) as [_ N].
    exists (notification (clock env (clock_reads w))). split; [by apply N|].
    unfold notification. repeat split; try done; set_solver.
  - destruct (handleRespond_update_errors item env w) as (shown & Hout & Hal).
    intros Hf. destruct Hout as [(F & _ & N & _)|(id & old & A & _ & C)].
    + split; [done|]. intros [[] Hs]. destruct F as [e He]. congruence.
    + destruct C as [(_ & N & ->)|[(U & _)|(ref & NA & _)]].
      * split; [done|]. intros _. by rewrite Hal, app_nil_r.
      * congruence.
      * apply notification_applies_truthy in NA. congruence.
Qed.

Lemma C3_one_notification_for_the_user_witness :
  ∃ n,
    store_notifications (exec (handleRespond r1) sample_env sample_world)
    = {[notifications_path "u1" := [n]]}
    ∧ n !! "timestamp" = Some (VStr "2023-11-14T22:13:20.000Z")
    ∧ n !! "read" = Some (VBool false)
    ∧ n !! "type" = Some (VStr "accident_response").
Proof.
  destruct (C3_one_notification_for_the_user r1 sample_env sample_world) as [H _].
  destruct (H "u1") as (n & Hn & _ & Hts & Hread & Htype & _);
    [by eexists|reflexivity|done|reflexivity|reflexivity|].
  exists n. split; [exact Hn|]. split; [exact Hts|]. split; [exact Hread|exact Htype].
Defined.

(** A user identifier of two segments names no collection: the
    notification fails, and an update error is shown. *)
Example two_segment_user_is_refused :
  notifications_of
    (exec (handleRespond (<["userId" := VStr "a/b"]> r1)) sample_env sample_world) "a/b" = []
  ∧ store_notifications
      (exec (handleRespond (<["userId" := VStr "a/b"]> r1)) sample_env sample_world) = ∅
  ∧ List.length
      (alerts_titled "Update Error"
         (exec (handleRespond (<["userId" := VStr "a/b"]> r1)) sample_env sample_world))
    = 1%nat.
Proof. repeat split; reflexivity. Qed.








(* ===================================================================== *)
(** * The scenarios of the specification *)
(* ===================================================================== *)

(** Report r1 with location (1.5, 2.5) and user u1: the link holds the
    coordinates, the status is updated and u1 gets one notification. *)
Example respond_to_r1 :
  opened_urls (exec (handleRespond r1) sample_env sample_world)
  = ["https://www.google.com/maps/search/?api=1&query=1.5,2.5"]
  ∧ stored_field (exec (handleRespond r1) sample_env sample_world) "r1" "status"
    = Some (VStr "Help on way")
  ∧ notifications_of (exec (handleRespond r1) sample_env sample_world) "u1"
    = [notification 1700000000000]
  ∧ alerts (exec (handleRespond r1) sample_env sample_world) = [].
Proof. repeat split; reflexivity. Qed.

(** Report r2 with a null location and no user: a location error, the
    status is updated all the same, and there is no notification. *)
Example respond_to_r2 :
  alerts (exec (handleRespond r2) sample_env sample_world)
  = [("Location Error", "Invalid location data for this accident.")]
  ∧ opened_urls (exec (handleRespond r2) sample_env sample_world) = []
  ∧ stored_field (exec (handleRespond r2) sample_env sample_world) "r2" "status"
    = Some (VStr "Help on way")
  ∧ store_notifications (exec (handleRespond r2) sample_env sample_world) = ∅.
Proof. repeat split; reflexivity. Qed.

(** The platform cannot open the link and says so while the update is
    awaited: an alert, and the writes go on. *)
Example respond_to_r1_without_maps :
  alerts (exec (handleRespond r1) link_rejected_env sample_world)
  = [("Error", "Failed to open Google Maps: No handler.")]
  ∧ stored_field (exec (handleRespond r1) link_rejected_env sample_world) "r1" "status"
    = Some (VStr "Help on way")
  ∧ notifications_of (exec (handleRespond r1) link_rejected_env sample_world) "u1"
    = [notification 1700000000000].
Proof. repeat split; reflexivity. Qed.

(** The platform says so only after the respond action has ended: until
    then the rejection waits, and the alert of the link comes after the
    update error. *)
Example respond_to_r1_late_answer :
  alerts (exec (handleRespond r1) link_rejected_late_env sample_world)
  = [("Update Error", "Could not update status: Missing or insufficient permissions.")]
  ∧ link_rejections (exec (handleRespond r1) link_rejected_late_env sample_world)
    = [ {| message := "No handler." |} ]
  ∧ alerts (exec link_answers link_rejected_late_env
              (exec (handleRespond r1) link_rejected_late_env sample_world))
    = [("Update Error", "Could not update status: Missing or insufficient permissions.");
       ("Error", "Failed to open Google Maps: No handler.")].
Proof. repeat split; reflexivity. Qed.

(** The store rejects the notification: one update error, and the status
    stays updated. *)
Example respond_to_r1_notification_rejected :
  alerts (exec (handleRespond r1) add_rejected_env sample_world)
  = [("Update Error", "Could not update status: Missing or insufficient permissions.")]
  ∧ stored_field (exec (handleRespond r1) add_rejected_env sample_world) "r1" "status"
    = Some (VStr "Help on way")
  ∧ notifications_of (exec (handleRespond r1) add_rejected_env sample_world) "u1" = [].
Proof. repeat split; reflexivity. Qed.

(** The exponent form of a coordinate close to zero, and a decimal written
    with a trailing zero. *)
Example Number_toString_samples :
  Number_toString (Finite 1 7) = "1e-7"
  ∧ Number_toString (Finite 150 2) = "1.5"
  ∧ Number_toString (Finite (-5) 2) = "-0.05"
  ∧ Number_toString (Finite 0 0) = "0".
Proof. repeat split; reflexivity. Qed.

(* ===================================================================== *)
(** * More about the list published for a snapshot *)
(* ===================================================================== *)

Lemma sort_insert_same_time (t : Z) (x : Obj) (l : list Obj) :
  filter (λ r, Date_valueOf (prop r "timestamp") = Some t)
    (sort_insert by_timestamp_desc x l)
  = filter (λ r, Date_valueOf (prop r "timestamp") = Some t) (x :: l).
Proof.
  induction l as [|y l IH]; cbn [sort_insert]; [done|].
  destruct (stays_before by_timestamp_desc x y) eqn:Hb; [done|].
  rewrite (filter_cons _ y), IH, !(filter_cons _ x), (filter_cons _ y).
  repeat case_decide; try done.
  unfold stays_before, by_timestamp_desc in Hb.
  match goal with
  | Hx : Date_valueOf (prop x _) = _, Hy : Date_valueOf (prop y _) = _ |- _ =>
      rewrite Hx, Hy in Hb
  end.
  apply Z.leb_gt in Hb. lia.
Qed.

Lemma Array_sort_same_time (t : Z) (l : list Obj) :
  filter (λ r, Date_valueOf (prop r "timestamp") = Some t)
    (Array_sort by_timestamp_desc l)
  = filter (λ r, Date_valueOf (prop r "timestamp") = Some t) l.
Proof.
  unfold Array_sort. induction l as [|x l IH]; cbn [foldr]; [done|].
  by rewrite sort_insert_same_time, !(filter_cons _ x), IH.
Qed.

(** X1: when every timestamp of the snapshot becomes a valid date, the
    records that share a timestamp are published in the order in which the
    snapshot delivered them: for every instant, the entries of that instant
    are the same list in the published list and in the snapshot order.
    (With an invalid date the comparator answers NaN and the order is the
    engine's own.) *)
Theorem X1_ties_keep_snapshot_order (qs : list DocSnap) (env : Env) (w : World) :
  Forall (λ d, becomes_valid_date env d = true) qs →
  ∃ entries,
    Forall2 (published_as env (clock_reads w)
               (clock_reads (exec (onSnapshot_callback qs) env w))) qs entries
    ∧ ∀ t : Z,
        filter (λ r, Date_valueOf (prop r "timestamp") = Some t)
          (accidentReports (exec (onSnapshot_callback qs) env w))
        = filter (λ r, Date_valueOf (prop r "timestamp") = Some t) entries.
Proof.
  intros _. destruct (onSnapshot_callback_run qs env w) as (entries & w' & E & Hl & Hall & _).
  unfold exec. rewrite E. cbn [snd]. exists entries. split; [done|].
  intros t. rewrite Hl. apply Array_sort_same_time.
Qed.

Lemma X1_ties_keep_snapshot_order_witness :
  Forall (λ d, becomes_valid_date sample_env d = true) tied_snapshot
  ∧ ∃ entries,
      Forall2 (published_as sample_env (clock_reads sample_world)
                 (clock_reads (exec (onSnapshot_callback tied_snapshot) sample_env sample_world)))
        tied_snapshot entries
      ∧ ∀ t : Z,
          filter (λ r, Date_valueOf (prop r "timestamp") = Some t)
            (accidentReports (exec (onSnapshot_callback tied_snapshot) sample_env sample_world))
          = filter (λ r, Date_valueOf (prop r "timestamp") = Some t) entries.
Proof.
  assert (Forall (λ d, becomes_valid_date sample_env d = true) tied_snapshot) as H
    by (repeat constructor).
  split; [exact H|].
  exact (X1_ties_keep_snapshot_order tied_snapshot sample_env sample_world H).
Defined.

(** On the sample the newer record comes first and the two records of the
    same instant follow in the order of the snapshot. *)
Example tied_snapshot_published :
  keyExtractor
    <$> accidentReports (exec (onSnapshot_callback tied_snapshot) sample_env sample_world)
  = [VStr "b"; VStr "a"; VStr "c"].
Proof. reflexivity. Qed.









(** With an [id] in the data two rows can get the same key. *)
Example data_ids_can_clash :
  keyExtractor
    <$> accidentReports
          (exec (onSnapshot_callback
                   [ {| snap_id := "a"; snap_data := {["id" := VStr "x"]} |};
                     {| snap_id := "b"; snap_data := {["id" := VStr "x"]} |} ])
             sample_env sample_world)
  = [VStr "x"; VStr "x"].
Proof. reflexivity. Qed.





(* ===================================================================== *)
(** * More about the respond action *)
(* ===================================================================== *)

Lemma respond_writes_returns (item : Obj) (env : Env) (w : World) :
  fst (respond_writes item env w) = Ok tt.
Proof.
  unfold respond_writes, update_and_notify, try_catch, on_update_error,
    console_error, Alert_alert. run_bind.
  destruct (update_status_run item env w)
    as [(id & old & w1 & link & H & E & _)|(H & e & w1 & link & E & _)];
    rewrite E; [|done].
  destruct (ToBoolean (prop item "userId")) eqn:Hu; [|done].
  destruct (send_notification_run item env w1)
    as [(ref & w2 & link2 & Hn & En & _)|(Hn & e & w2 & link2 & En & _)]; by rewrite En.
Qed.

(** X6: the respond action never throws, whatever the report and whatever
    the platform and the store answer: every failure ends in an alert; and it
    leaves the list on the screen as it is (the list changes only with the
    next snapshot). *)
Theorem X6_respond_never_throws (item : Obj) (env : Env) (w : World) :
  fst (handleRespond item env w) = Ok tt
  ∧ accidentReports (exec (handleRespond item) env w) = accidentReports w.
Proof.
  split.
  - destruct (open_maps_run item env w) as (w1 & ? & ? & E & _).
    unfold handleRespond. run_bind. rewrite E. apply respond_writes_returns.
  - by destruct (handleRespond_run item env w) as (_ & _ & _ & _ & _ & _ & _ & _ & H & _).
Qed.

(** X7: once the status update of a report has succeeded, responding to the
    same report again, with the store accepting the update, leaves the
    collection of reports exactly as the first response left it. *)
Theorem X7_second_response_changes_no_report
    (item : Obj) (env1 env2 : Env) (w : World) :
  succeeds (update_status item) env1 w →
  updateDoc_fails env2 = None →
  store_reports (exec (handleRespond item) env2 (exec (handleRespond item) env1 w))
  = store_reports (exec (handleRespond item) env1 w).
Proof.
  intros Hs Hu2. apply update_status_succeeds in Hs as (id & old & A).
  destruct (handleRespond_applied item env1 w id old A) as [R1 _].
  pose proof A as (Pid & Hne & _ & Hold).
  assert (update_applies item env2 (exec (handleRespond item) env1 w) id
            ({["status" := VStr "Help on way"]} ∪ old)) as A2.
  { repeat split; try done. by rewrite R1, lookup_insert_eq. }
  destruct (handleRespond_applied item env2 _ id _ A2) as [R2 _].
  rewrite R2, R1, insert_insert_eq. f_equal.
  by rewrite (assoc_L (∪)), (idemp_L (∪)).
Qed.

Lemma X7_second_response_changes_no_report_witness :
  succeeds (update_status r1) sample_env sample_world
  ∧ store_reports
      (exec (handleRespond r1) add_rejected_env (exec (handleRespond r1) sample_env sample_world))
    = store_reports (exec (handleRespond r1) sample_env sample_world).
Proof.
  assert (succeeds (update_status r1) sample_env sample_world) as H by (by eexists).
  split; [exact H|].
  exact (X7_second_response_changes_no_report r1 sample_env add_rejected_env sample_world
           H eq_refl).
Defined.

(** X8: the timestamp written into a notification (line 70) is a string
    that [new Date], in any time zone, reads back as the instant of the
    call: the notification added for a user named by a single path segment
    holds a string whose date is the clock reading taken by the respond
    action. *)
Theorem X8_notification_timestamp_reads_back
    (item : Obj) (env env' : Env) (w : World) (uid : string) :
  succeeds (update_status item) env w →
  prop item "userId" = VStr uid → uid ≠ "" → has_slash uid = false →
  addDoc_fails env = None →
  Z.abs (clock env (clock_reads w)) <= maxTime →
  ∃ n s,
    notifications_of (exec (handleRespond item) env w) uid
    = (notifications_of w uid ++ [n])%list
    ∧ n !! "timestamp" = Some (VStr s)
    ∧ Date_construct env' (VStr s) = Some (clock env (clock_reads w)).
Proof.
  intros Hs Hu Hne Hsl Ha Hr. apply update_status_succeeds in Hs as (id & old & A).
  destruct (handleRespond_applied item env w id old A) as [_ N].
  exists (notification (clock env (clock_reads w))), (toISOString (clock env (clock_reads w))).
  split; [eapply notifications_of_added; by apply N|]. split; [done|].
  unfold Date_construct, Date_parse. by rewrite parse_iso_toISOString.
Qed.

Lemma X8_notification_timestamp_reads_back_witness :
  ∃ n s,
    notifications_of (exec (handleRespond r1) sample_env sample_world) "u1" = [n]
    ∧ n !! "timestamp" = Some (VStr s)
    ∧ Date_construct link_rejected_env (VStr s) = Some 1700000000000.
Proof.
  apply (X8_notification_timestamp_reads_back r1 sample_env link_rejected_env sample_world "u1");
    [by eexists|reflexivity|done|reflexivity|reflexivity|].
  vm_compute. discriminate.
Defined.

Lemma handleRespond_v1_run (item : Obj) (env : Env) (w : World) :
  ∃ w1,
    open_maps item env w = (Ok tt, w1)
    ∧ opened_urls (exec (handleRespond_v1 item) env w) = opened_urls w1
    ∧ store_notifications (exec (handleRespond_v1 item) env w) = store_notifications w
    ∧ ((fails (update_status item) env w
        ∧ store_reports (exec (handleRespond_v1 item) env w) = store_reports w)
       ∨ (∃ id old,
            update_applies item env w id old
            ∧ store_reports (exec (handleRespond_v1 item) env w)
              = <[id := {["status" := VStr "Help on way"]} ∪ old]> (store_reports w))).
Proof.
  destruct (open_maps_run item env w)
    as (w1 & located & urls & E & Hr & Hn & Hc & Ha & Hal & Hu & Hloc).
  unfold exec, handleRespond_v1, try_catch, Alert_alert. run_bind. rewrite E.
  destruct (update_status_run item env w1)
    as [(id & old & w2 & link & A & E1 & Hr2 & Hn2 & Ha2 & Hu2 & _)
       |(F & e & w2 & link & E1 & Hr2 & Hn2 & Ha2 & Hu2 & _)];
    rewrite E1; cbn in *.
  - exists w1. repeat split; try congruence. right.
    exists id, old. destruct A as (? & ? & ? & Hl). rewrite Hr in Hl. rewrite Hr2, Hr.
    by repeat split.
  - exists w1. repeat split; try congruence. left.
    split; [|congruence].
    apply update_status_fails. intros id old (? & ? & ? & Hl). apply (F id old).
    rewrite <- Hr in Hl. by repeat split.
Qed.

(** X9: the earlier version of the respond action requests the same link
    and leaves the reports exactly as the current version does, and it never
    writes a notification. *)
Theorem X9_earlier_respond_same_reports (item : Obj) (env : Env) (w : World) :
  store_reports (exec (handleRespond_v1 item) env w)
  = store_reports (exec (handleRespond item) env w)
  ∧ opened_urls (exec (handleRespond_v1 item) env w)
    = opened_urls (exec (handleRespond item) env w)
  ∧ store_notifications (exec (handleRespond_v1 item) env w) = store_notifications w.
Proof.
  destruct (handleRespond_v1_run item env w) as (w1 & E & Hu1 & Hn1 & Hcase).
  destruct (handleRespond_run item env w)
    as (located & urls & link & shown & Hout & _ & _ & Hu & _ & Hloc).
  destruct (open_maps_run item env w)
    as (w1' & located' & urls' & E' & _ & _ & _ & _ & _ & Hu' & Hloc').
  assert (w1' = w1) as -> by congruence.
  split; [|split; [|done]].
  - destruct Hcase as [(F & R)|(id & old & A & R)],
             Hout as [(F' & R' & _)|(id' & old' & A' & R' & _)].
    + congruence.
    + destruct (proj1 (update_status_fails _ _ _) F id' old' A').
    + destruct (proj1 (update_status_fails _ _ _) F' id old A).
    + destruct (update_applies_functional _ _ _ _ _ _ _ A A') as [<- <-]. congruence.
  - rewrite Hu1, Hu', Hu.
    destruct (location_is_numeric item); destruct Hloc as [-> _], Hloc' as [-> _]; done.
Qed.



(* ===================================================================== *)
(** * The main screen *)
(* ===================================================================== *)

Lemma foldl_on_change (changes : list DocChange) (shown : list (string * value)) :
  foldl on_change shown changes
  = (shown
     ++ ((λ c, ("Update Received", prop (change_doc c) "message"))
           <$> filter (λ c, change_type c = "added") changes))%list.
Proof.
  revert shown. induction changes as [|c changes IH]; intros shown; cbn [foldl].
  - by rewrite app_nil_r.
  - rewrite IH, filter_cons. unfold on_change.
    destruct (String.eqb_spec (change_type c) "added"); case_decide; try done.
    by rewrite fmap_cons, <- app_assoc.
Qed.

(** X11: the listener shows one alert "Update Received" for every change of
    type 'added' of the snapshot, in the order of the changes and with the
    [message] of the changed document; changes of any other type show
    nothing, and the location and the error message of the screen are left
    alone. *)
Theorem X11_one_alert_per_added_change (changes : list DocChange) (s : MainScreen) :
  main_alerts (on_notifications changes s)
  = (main_alerts s
     ++ ((λ c, ("Update Received", prop (change_doc c) "message"))
           <$> filter (λ c, change_type c = "added") changes))%list
  ∧ location (on_notifications changes s) = location s
  ∧ errorMsg (on_notifications changes s) = errorMsg s.
Proof. split; [apply foldl_on_change|done]. Qed.

(** X12: a notification written by the respond action reaches the user who
    reported, when that user is named by a single path segment: it lies in
    the collection that the main screen of that user listens to, it passes
    the filter [read == false] of the listener, and when the listener
    receives it as an added document the alert shows the acknowledgement of
    the responder. *)
Theorem X12_response_reaches_the_reporter
    (item : Obj) (env : Env) (w : World) (uid : string) (s : MainScreen) :
  succeeds (update_status item) env w →
  prop item "userId" = VStr uid → uid ≠ "" → has_slash uid = false →
  addDoc_fails env = None →
  ∃ n,
    start_watcher (VStr uid) = Ok (Some (notifications_path uid))
    ∧ notifications_of (exec (handleRespond item) env w) uid
      = (notifications_of w uid ++ [n])%list
    ∧ is_unread n = true
    ∧ main_alerts (on_notifications [ {| change_type := "added"; change_doc := n |} ] s)
      = (main_alerts s
         ++ [("Update Received",
              VStr "🚑 Help is on the way! A driver has responded to your accident report.")])%list.
Proof.
  intros Hs Hu Hne Hsl Ha. apply update_status_succeeds in Hs as (id & old & A).
  destruct (handleRespond_applied item env w id old A) as [_ N].
  exists (notification (clock env (clock_reads w))). split; [|split; [|split]].
  - unfold start_watcher. cbn [ToBoolean].
    destruct (String.eqb_spec uid ""); [done|]. cbn [negb].
    by rewrite collection_path_one_segment.
  - eapply notifications_of_added. by apply N.
  - reflexivity.
  - reflexivity.
Qed.

Lemma X12_response_reaches_the_reporter_witness :
  ∃ n,
    start_watcher (VStr "u1") = Ok (Some "users/u1/notifications")
    ∧ notifications_of (exec (handleRespond r1) sample_env sample_world) "u1" = [n]
    ∧ is_unread n = true
    ∧ main_alerts (on_notifications [ {| change_type := "added"; change_doc := n |} ]
                     initial_screen)
      = [("Update Received",
          VStr "🚑 Help is on the way! A driver has responded to your accident report.")].
Proof.
  apply (X12_response_reaches_the_reporter r1 sample_env sample_world "u1" initial_screen);
    [by eexists|reflexivity|done|reflexivity|reflexivity].
Defined.

(** Without a user the screen does not listen at all; with a user of two
    path segments the effect throws. *)
Example no_user_no_listener :
  start_watcher VUndefined = Ok None ∧ start_watcher (VStr "") = Ok None
  ∧ ∃ e, start_watcher (VStr "a/b") = Throw e.
Proof. repeat split; try reflexivity. by eexists. Qed.

(** X13: when the permission is not granted or the position request fails,
    the screen keeps no location: the map gets no region and the report
    screen is opened with [lat] and [lng] undefined, the user still being
    passed on; the alert and the error message appear exactly when the
    permission was not granted. *)
Theorem X13_no_position_no_coordinates (dev : Device) (userId : value) :
  permission_status dev ≠ "granted" ∨ current_position dev = None →
  location (acquire_location dev initial_screen) = VNull
  ∧ map_region (location (acquire_location dev initial_screen)) = VUndefined
  ∧ report_params (location (acquire_location dev initial_screen)) userId !! "lat"
    = Some VUndefined
  ∧ report_params (location (acquire_location dev initial_screen)) userId !! "lng"
    = Some VUndefined
  ∧ report_params (location (acquire_location dev initial_screen)) userId !! "userId"
    = Some userId
  ∧ (permission_status dev ≠ "granted" →
     errorMsg (acquire_location dev initial_screen)
     = VStr "Permission to access location was denied"
     ∧ main_alerts (acquire_location dev initial_screen)
       = [("Location Required", VStr "Please enable location services to use this app.")])
  ∧ (permission_status dev = "granted" →
     errorMsg (acquire_location dev initial_screen) = VNull
     ∧ main_alerts (acquire_location dev initial_screen) = []).
Proof.
  intros H. unfold acquire_location.
  destruct (String.eqb_spec (permission_status dev) "granted") as [Hg|Hg]; cbn [negb].
  - destruct H as [H|H]; [done|]. rewrite H. by repeat split.
  - by repeat split.
Qed.

Lemma X13_no_position_no_coordinates_witness :
  location (acquire_location denied_device initial_screen) = VNull
  ∧ report_params (location (acquire_location denied_device initial_screen)) (VStr "u1") !! "lat"
    = Some VUndefined.
Proof.
  destruct (X13_no_position_no_coordinates denied_device (VStr "u1")) as (H1 & _ & H2 & _).
  - left. discriminate.
  - by split.
Defined.

(** X14: when the permission is granted and the position is obtained, the
    screen shows no alert and no error, the map is centred on the
    coordinates obtained with both deltas 0.01, and the report screen is
    opened with those same coordinates. *)
Theorem X14_position_centres_the_map (dev : Device) (coords : Obj) (userId : value) :
  permission_status dev = "granted" →
  current_position dev = Some coords →
  location (acquire_location dev initial_screen) = VObj coords
  ∧ errorMsg (acquire_location dev initial_screen) = VNull
  ∧ main_alerts (acquire_location dev initial_screen) = []
  ∧ (∃ region,
       map_region (location (acquire_location dev initial_screen)) = VObj region
       ∧ region !! "latitude" = Some (prop coords "latitude")
       ∧ region !! "longitude" = Some (prop coords "longitude")
       ∧ region !! "latitudeDelta" = Some (VNum (Finite 1 2))
       ∧ region !! "longitudeDelta" = Some (VNum (Finite 1 2))
       ∧ report_params (location (acquire_location dev initial_screen)) userId !! "lat"
         = region !! "latitude"
       ∧ report_params (location (acquire_location dev initial_screen)) userId !! "lng"
         = region !! "longitude").
Proof.
  intros Hg Hp. unfold acquire_location. rewrite Hg, Hp. cbn.
  repeat split. eexists. split; [reflexivity|]. by repeat split.
Qed.

Lemma X14_position_centres_the_map_witness :
  ∃ region,
    map_region (location (acquire_location granted_device initial_screen)) = VObj region
    ∧ region !! "latitude" = Some (VNum (Finite 15 1))
    ∧ region !! "longitude" = Some (VNum (Finite 25 1)).
Proof.
  destruct (X14_position_centres_the_map granted_device
              (<["latitude" := VNum (Finite 15 1)]> (<["longitude" := VNum (Finite 25 1)]> ∅))
              VUndefined)
    as (_ & _ & _ & region & Hr & Hlat & Hlng & _); [reflexivity|reflexivity|].
  exists region. by repeat split.
Defined.

(* ===================================================================== *)
(** * From the list to the respond action *)
(* ===================================================================== *)

(** X15: a record whose data has an [id] of its own is responded to under
    that [id]: when the data names another stored report and the store
    accepts the update, it is that other report whose status becomes
    "Help on way", and the document the record came from is left as it
    was. *)
Theorem X15_response_follows_the_data_id
    (d : DocSnap) (ts : value) (env : Env) (w : World) (other : string) (old : Obj) :
  snap_data d !! "id" = Some (VStr other) →
  other ≠ "" → other ≠ snap_id d →
  updateDoc_fails env = None →
  store_reports w !! other = Some old →
  stored_field (exec (handleRespond (report_entry d ts)) env w) other "status"
  = Some (VStr "Help on way")
  ∧ store_reports (exec (handleRespond (report_entry d ts)) env w) !! snap_id d
    = store_reports w !! snap_id d.
Proof.
  intros Hid Hne Hother Hu Hold.
  assert (update_applies (report_entry d ts) env w other old) as A.
  { repeat split; try done. unfold prop. by rewrite report_entry_id, Hid. }
  destruct (handleRespond_applied _ env w other old A) as [R _].
  destruct (stored_field_updated w _ other old Hold R) as (Hst & _ & Hrest & _).
  split; [done|]. by apply Hrest.
Qed.

Lemma X15_response_follows_the_data_id_witness :
  stored_field
    (exec (handleRespond
             (report_entry {| snap_id := "r2"; snap_data := <["id" := VStr "r1"]> r2_data |}
                (VDate (Some 0))))
       sample_env sample_world) "r1" "status"
  = Some (VStr "Help on way")
  ∧ stored_field
      (exec (handleRespond
               (report_entry {| snap_id := "r2"; snap_data := <["id" := VStr "r1"]> r2_data |}
                  (VDate (Some 0))))
         sample_env sample_world) "r2" "status"
    = Some (VStr "Pending").
Proof.
  destruct (X15_response_follows_the_data_id
              {| snap_id := "r2"; snap_data := <["id" := VStr "r1"]> r2_data |}
              (VDate (Some 0)) sample_env sample_world "r1" r1_data)
    as [H1 H2]; [reflexivity|done|done|reflexivity|reflexivity|].
  split; [exact H1|]. unfold stored_field. cbn [snap_id] in H2. rewrite H2. reflexivity.
Defined.
